(** * cms.api: programmatic creation and management of CMS content

    A shallow embedding of [src/cms/api.py].  A database table is a
    finite map from primary keys to rows, Python objects that are
    mutated in place live in a small heap, an exception is a
    constructor of the result type, and the collaborators that are
    imported from other modules (the tree library, the permission
    engine, the plugin and apphook pools) are variables of the Section
    that embeds the function using them.  The first part holds the
    embedding, the second part the properties. *)

From stdpp Require Import base tactics option list strings pretty gmap sorting.

(** ** Exceptions and results *)

(** The exception classes raised in [api.py], directly or by an
    [assert]. *)
Inductive exn : Type :=
  | AssertionError
  | TypeError (msg : string)
  | ValidationError (msg : string)
  | FieldError (msg : string)
  | PermissionDenied
  | ImproperlyConfigured (msg : string)
  | DoesNotExist
  | KeyError (key : string)
  | AttributeError (name : string)
  | Exception (msg : string).

Inductive result (A : Type) : Type :=
  | Ok (a : A)
  | Raise (e : exn).
Arguments Ok {A} a.
Arguments Raise {A} e.

Global Instance result_ret : MRet result := λ A a, Ok a.

Global Instance result_bind : MBind result := λ A B k r,
  match r with
  | Ok a => k a
  | Raise e => Raise e
  end.

(** [assert b] *)
Definition py_assert (b : bool) : result unit :=
  if b then Ok tt else Raise AssertionError.

(** Truth value of a Python string and of an optional string
    ([None] and [''] are false). *)
Definition truthy_str (s : string) : bool :=
  match s with "" => false | _ => true end.

Definition truthy_ostr (o : option string) : bool :=
  match o with None => false | Some s => truthy_str s end.

(** The string made of one double quote. *)
Definition dquote : string := String (Ascii.ascii_of_nat 34) "".

(** ** Calls that read and write a store

    A call runs on a store [S] and hands back the store it leaves
    behind, together with its value or the exception it raised: the
    writes made before an exception stay. *)
Definition py (S A : Type) : Type := S → result A * S.

Global Instance py_ret {S} : MRet (py S) := λ A a s, (Ok a, s).

Global Instance py_bind {S} : MBind (py S) := λ A B k m s,
  match m s with
  | (Ok a, s') => k a s'
  | (Raise e, s') => (Raise e, s')
  end.

Definition lift {S A} (r : result A) : py S A := λ s, (r, s).
Definition raise {S A} (e : exn) : py S A := λ s, (Raise e, s).
Definition query {S A} (f : S → A) : py S A := λ s, (Ok (f s), s).
Definition update {S} (f : S → S) : py S unit := λ s, (Ok tt, f s).

(** [for x in xs: body(x)] *)
Fixpoint for_each {S A} (xs : list A) (body : A → py S unit) : py S unit :=
  match xs with
  | [] => mret tt
  | x :: xs' => body x ;; for_each xs' body
  end.

(** ** Slug generator *)

Module Slug.

(** The columns of [Title] that [generate_valid_slug] reads;
    [page_parent] is the primary key of the parent of the title's
    page, [None] for a root page. *)
Record Title := {
  language : string;
  slug : string;
  page_parent : option nat
}.

Section generate_valid_slug.

(** [django.template.defaultfilters.slugify] *)
Variable slugify : string → string.

(** Both branches of [if parent:] filter on the language and on the
    parent of the page: [page__parent=parent] when a parent is given,
    [page__parent__isnull=True] otherwise. *)
Definition sibling (parent : option nat) (lang : string) (t : Title) : bool :=
  bool_decide (language t = lang) &&
  match parent with
  | Some p => bool_decide (page_parent t = Some p)
  | None => bool_decide (page_parent t = None)
  end.

(** [list(qs.values_list('slug', flat=True))] *)
Definition used_slugs (titles : list Title) (parent : option nat)
    (lang : string) : list string :=
  slug <$> filter (λ t, sibling parent lang t = true) titles.

(** ['%s-%s' % (baseslug, i)] *)
Definition suffixed (baseslug : string) (i : nat) : string :=
  baseslug +:+ "-" +:+ pretty i.

(** The [while slug in used] loop; a turn costs one unit of fuel. *)
Fixpoint slug_loop (fuel : nat) (used : list string) (baseslug slug : string)
    (i : nat) : option string :=
  if bool_decide (slug ∈ used) then
    match fuel with
    | 0 => None
    | S fuel' => slug_loop fuel' used baseslug (suffixed baseslug i) (S i)
    end
  else Some slug.

Definition generate_valid_slug (fuel : nat) (titles : list Title)
    (source : string) (parent : option nat) (lang : string) : option string :=
  let used := used_slugs titles parent lang in
  let baseslug := slugify source in
  match used with
  | [] => Some baseslug
  | _ => slug_loop fuel used baseslug baseslug 1
  end.

(** The call as the rest of the module uses it: the fuel is the size
    of the title table, which the loop never exhausts. *)
Definition valid_slug (titles : list Title) (source : string)
    (parent : option nat) (lang : string) : string :=
  default (slugify source)
    (generate_valid_slug (length titles) titles source parent lang).

(** The candidates in the order the loop tries them. *)
Definition candidate (baseslug : string) (k : nat) : string :=
  match k with
  | 0 => baseslug
  | S _ => suffixed baseslug k
  end.

End generate_valid_slug.

End Slug.

(** ** Apphook verification *)

Module Apphooks.

(** A [CMSApp] subclass: its [__name__], its [__module__] and the
    [app_name] it declares, if any. *)
Record AppClass := {
  cls_name : string;
  cls_module : string;
  app_name : option string
}.

Global Instance AppClass_eq_dec : EqDecision AppClass.
Proof. solve_decision. Defined.

(** What a caller can pass as [apphook]: nothing, a string, an instance
    of a [CMSApp] subclass, such a subclass itself, or another object.
    Of another object two things matter: its truth value, and whether
    it has a [__module__] attribute without being a class, in which
    case [issubclass] raises. *)
Inductive apphook_arg :=
  | AppNone
  | AppString (name : string)
  | AppInstance (c : AppClass)
  | AppSubclass (c : AppClass)
  | AppOther (truth : bool) (module_not_class : bool).

Definition truthy_apphook (a : apphook_arg) : bool :=
  match a with
  | AppNone => false
  | AppString name => truthy_str name
  | AppInstance _ | AppSubclass _ => true
  | AppOther b _ => b
  end.

Section _verify_apphook.

(** [apphook_pool.apps] after [discover_apps()]: the registered
    application instances by name, each given by its class. *)
Variable apps : gmap string AppClass.

(** The end of [_verify_apphook], which the branches for an instance
    and for a string reach. *)
Definition check_namespace (apphook_name : string) (namespace : option string)
    : result string :=
  match apps !! apphook_name with
  | Some app =>
      if truthy_ostr (app_name app) && negb (truthy_ostr namespace)
      then Raise (ValidationError "apphook with app_name must define a namespace")
      else Ok apphook_name
  | None => Raise (KeyError apphook_name)
  end.

Definition _verify_apphook (apphook : apphook_arg) (namespace : option string)
    : result string :=
  match apphook with
  | AppInstance c =>
      py_assert (bool_decide (c ∈ (map_to_list apps).*2)) ;;
      check_namespace (cls_name c) namespace
  | AppSubclass c => Ok (cls_name c)
  | AppString name =>
      py_assert (bool_decide (is_Some (apps !! name))) ;;
      check_namespace name namespace
  | AppOther _ true =>
      Raise (TypeError "issubclass() arg 1 must be a class")
  | AppNone | AppOther _ false =>
      Raise (TypeError "apphook must be string or CMSApp instance")
  end.

End _verify_apphook.

(** *** Vocabulary of the properties *)

(** The outcome of the namespace check for a registered application. *)
Definition namespace_verdict (app : AppClass) (name : string)
    (namespace : option string) : result string :=
  if truthy_ostr (app_name app) && negb (truthy_ostr namespace)
  then Raise (ValidationError "apphook with app_name must define a namespace")
  else Ok name.

End Apphooks.

(** ** Page builder and title builder *)

Module Pages.

Record User := {
  username : string
}.

(** The columns of a page that [create_page] sets or reads.  Dates are
    day numbers, sites are given by their primary key, and
    [limit_visibility_in_menu] ranges over the values of
    [cms.constants]. *)
Record PageRow := {
  created_by : option string;
  changed_by : option string;
  parent_id : option nat;
  publication_date : option nat;
  publication_end_date : option nat;
  in_navigation : bool;
  soft_root : bool;
  reverse_id : option string;
  navigation_extenders : option string;
  template : string;
  application_urls : option string;
  application_namespace : option string;
  site : nat;
  login_required : bool;
  limit_visibility_in_menu : option nat;
  xframe_options : nat;
  publisher_is_draft : bool
}.

(** A [Page] instance: the columns and the primary key. *)
Record Page := {
  pk : option nat;
  row :> PageRow
}.

Record TitleRow := {
  language : string;
  title : string;
  menu_title : option string;
  slug : string;
  redirect : option string;
  meta_description : option string;
  page : option nat;
  has_url_overwrite : bool;
  path : string
}.

Record Title := {
  title_pk : option nat;
  title_row :> TitleRow
}.

(** The store: the page and title tables and [_thread_locals.user],
    which is [None] both when the attribute is unset and when it holds
    [None]. *)
Record Store := {
  pages : gmap nat PageRow;
  titles : gmap nat TitleRow;
  thread_user : option User
}.

Definition set_pages (f : gmap nat PageRow → gmap nat PageRow) (s : Store) : Store :=
  {| pages := f (pages s); titles := titles s; thread_user := thread_user s |}.

Definition set_titles (f : gmap nat TitleRow → gmap nat TitleRow) (s : Store)
    : Store :=
  {| pages := pages s; titles := f (titles s); thread_user := thread_user s |}.

Definition set_thread_user (u : option User) (s : Store) : Store :=
  {| pages := pages s; titles := titles s; thread_user := u |}.

(** Modelled from the spec: [page.reload()] returns the page as
    reloaded from the store, [Page.objects.get(pk=self.pk)]. *)
Definition get_page (k : option nat) : py Store Page := λ s,
  match k ≫= (pages s !!.) with
  | Some r => (Ok {| pk := k; row := r |}, s)
  | None => (Raise DoesNotExist, s)
  end.

Definition reload (p : Page) : py Store Page := get_page (pk p).

(** [page.add_root(instance=page)] of the tree library saves the new
    instance as a root node; the tree columns it fills in are not read
    by [create_page]. *)
Definition add_root (p : Page) : py Store Page := λ s,
  let k := fresh (dom (pages s)) in
  (Ok {| pk := Some k; row := p |}, set_pages <[k := row p]> s).

(** [Title.objects.create(...)] and [title.save()] *)
Definition create (t : TitleRow) : py Store Title := λ s,
  let k := fresh (dom (titles s)) in
  (Ok {| title_pk := Some k; title_row := t |}, set_titles <[k := t]> s).

Definition save_title (t : Title) : py Store unit := λ s,
  match title_pk t with
  | Some k => (Ok tt, set_titles <[k := title_row t]> s)
  | None => (Ok tt, set_titles <[fresh (dom (titles s)) := title_row t]> s)
  end.

(** The title table as [generate_valid_slug] queries it: the parent
    of the page of each title is joined in. *)
Definition sibling_view (s : Store) : list Slug.Title :=
  (λ kt : nat * TitleRow,
     {| Slug.language := language kt.2; Slug.slug := slug kt.2;
        Slug.page_parent := (page kt.2 ≫= (pages s !!.)) ≫= parent_id |})
  <$> map_to_list (titles s).

(** [Page.objects.drafts().filter(reverse_id=..., site=...).count()] *)
Definition count_drafts (rid : string) (site_id : nat) (s : Store) : nat :=
  length (filter (λ kr : nat * PageRow,
                    publisher_is_draft kr.2 = true ∧
                    reverse_id kr.2 = Some rid ∧ site kr.2 = site_id)
                 (map_to_list (pages s))).

(** What a caller can pass as [created_by]. *)
Inductive created_by_arg :=
  | ByUser (u : User)
  | ByName (name : string)
  | ByNone.

(** The arguments of [create_page].  Those that the function checks
    with [isinstance] against a model or a date ([site], [parent], the
    publication dates) have the type that the check asks for. *)
Record Args := {
  a_title : string;
  a_template : string;
  a_language : string;
  a_menu_title : option string;
  a_slug : option string;
  a_apphook : Apphooks.apphook_arg;
  a_apphook_namespace : option string;
  a_redirect : option string;
  a_meta_description : option string;
  a_created_by : created_by_arg;
  a_parent : option Page;
  a_publication_date : option nat;
  a_publication_end_date : option nat;
  a_in_navigation : bool;
  a_soft_root : bool;
  a_reverse_id : option string;
  a_navigation_extenders : option string;
  a_published : bool;
  a_site : option nat;
  a_login_required : bool;
  a_limit_visibility_in_menu : option nat;
  a_position : string;
  a_overwrite_url : option string;
  a_xframe_options : nat;
  a_with_revision : bool
}.

(** Settings, constants and registries that [create_page] consults. *)
Record Env := {
  reversion_installed : bool;
  TEMPLATE_INHERITANCE_MAGIC : string;
  TEMPLATES : list string;
  get_template : string → result unit;
  current_site : nat;
  get_language_list : nat → list string;
  cms_enabled_menus : list string;
  accepted_limitations : list (option nat);
  REVISION_INITIAL_COMMENT : string;
  apps : gmap string Apphooks.AppClass;
  slugify : string → string
}.

Section create_page.

Variable env : Env.

(** [page.move(target=parent, pos=position)] of the tree library. *)
Variable move : Page → Page → string → py Store Page.

(** [page.publish(language)] *)
Variable publish : Page → string → py Store bool.

(** [make_revision_with_plugins(obj, user, message)], run inside
    [create_revision()]. *)
Variable make_revision_with_plugins :
  Page → option User → option string → py Store unit.

Definition _create_revision (obj : Page) (user : option User)
    (message : option string) : py Store unit :=
  make_revision_with_plugins obj user message.

Definition _verify_revision_support : result unit :=
  if reversion_installed env then Ok tt
  else Raise (ImproperlyConfigured
    "You have requested to create a revision but the reversion app is not in settings.INSTALLED_APPS").

Definition generate_valid_slug (source : string) (parent : option Page)
    (lang : string) : py Store string :=
  query (λ s, Slug.valid_slug (slugify env) (sibling_view s) source
                (parent ≫= pk) lang).

Definition create_title (lang : string) (title : string) (page : Page)
    (menu_title slug redirect meta_description : option string)
    (parent : option Page) (overwrite_url : option string)
    (with_revision : bool) : py Store Title :=
  lift (py_assert (bool_decide (lang ∈ get_language_list env (site page)))) ;;
  (if with_revision then lift _verify_revision_support else mret tt) ;;
  slug ← (if truthy_ostr slug then mret (default "" slug)
          else generate_valid_slug title parent lang);
  t ← create {| language := lang; title := title; menu_title := menu_title;
                slug := slug; redirect := redirect;
                meta_description := meta_description; page := pk page;
                has_url_overwrite := false; path := "" |};
  t ← (if truthy_ostr overwrite_url then
         let t' := {| title_pk := title_pk t;
                      title_row :=
                        {| language := language t; title := Pages.title t;
                           menu_title := Pages.menu_title t; slug := Pages.slug t;
                           redirect := Pages.redirect t;
                           meta_description := Pages.meta_description t;
                           page := Pages.page t; has_url_overwrite := true;
                           path := default "" overwrite_url |} |} in
         save_title t' ;; mret t'
       else mret t);
  (if with_revision then _create_revision page None None else mret tt) ;;
  mret t.

(** What the checks of [create_page] leave behind for the rest of the
    function. *)
Record Checked := {
  c_site : nat;
  c_slug : string;
  c_parent : option Page;
  c_parent_id : option nat;
  c_application_urls : option string;
  c_created_by : option string
}.

(** [create_page] from its first line to the "permissions hack". *)
Definition validate (a : Args) : py Store Checked :=
  (if a_with_revision a then lift _verify_revision_support else mret tt) ;;
  (if bool_decide (a_template a = TEMPLATE_INHERITANCE_MAGIC env) then mret tt
   else
     lift (py_assert (bool_decide (a_template a ∈ TEMPLATES env))) ;;
     lift (get_template env (a_template a))) ;;
  let site := default (current_site env) (a_site a) in
  lift (py_assert (bool_decide (a_language a ∈ get_language_list env site))) ;;
  slug ← (if truthy_ostr (a_slug a) then mret (default "" (a_slug a))
          else generate_valid_slug (a_title a) (a_parent a) (a_language a));
  parent ← match a_parent a with
           | Some p => p' ← get_page (pk p); mret (Some p')
           | None => mret None
           end;
  (if truthy_ostr (a_navigation_extenders a) then
     lift (py_assert (bool_decide
             (default "" (a_navigation_extenders a) ∈ cms_enabled_menus env)))
   else mret tt) ;;
  lift (py_assert (bool_decide
          (a_limit_visibility_in_menu a ∈ accepted_limitations env))) ;;
  lift (py_assert (bool_decide
          (a_position a ∈ ["last-child"; "first-child"; "left"; "right"]))) ;;
  let parent_id :=
    match parent with
    | Some p =>
        if bool_decide (a_position a ∈ ["last-child"; "first-child"])
        then pk p else parent_id p
    | None => None
    end in
  application_urls ←
    (if Apphooks.truthy_apphook (a_apphook a) then
       name ← lift (Apphooks._verify_apphook (apps env) (a_apphook a)
                      (a_apphook_namespace a));
       mret (Some name)
     else mret None);
  created_by ←
    match a_created_by a with
    | ByUser u => update (set_thread_user (Some u)) ;; mret (Some (username u))
    | ByName name => update (set_thread_user None) ;; mret (Some name)
    | ByNone => update (set_thread_user None) ;; mret None
    end;
  mret {| c_site := site; c_slug := slug; c_parent := parent;
          c_parent_id := parent_id; c_application_urls := application_urls;
          c_created_by := created_by |}.

(** [if reverse_id: if Page.objects.drafts().filter(...).count(): raise] *)
Definition check_reverse_id (a : Args) (c : Checked) : py Store unit :=
  match a_reverse_id a with
  | Some rid =>
      if truthy_str rid then
        n ← query (count_drafts rid (c_site c));
        if bool_decide (n ≠ 0) then
          raise (FieldError
            ("A page with the reverse_id=" +:+ dquote +:+ rid +:+ dquote
             +:+ " already exist."))
        else mret tt
      else mret tt
  | None => mret tt
  end.

(** [create_page] from the construction of the page to its end. *)
Definition build (a : Args) (c : Checked) : py Store Page :=
  page ← add_root
    {| pk := None;
       row := {| created_by := c_created_by c; changed_by := c_created_by c;
                 parent_id := c_parent_id c;
                 publication_date := a_publication_date a;
                 publication_end_date := a_publication_end_date a;
                 in_navigation := a_in_navigation a;
                 soft_root := a_soft_root a;
                 reverse_id := a_reverse_id a;
                 navigation_extenders := a_navigation_extenders a;
                 template := a_template a;
                 application_urls := c_application_urls c;
                 application_namespace := a_apphook_namespace a;
                 site := c_site c;
                 login_required := a_login_required a;
                 limit_visibility_in_menu := a_limit_visibility_in_menu a;
                 xframe_options := a_xframe_options a;
                 publisher_is_draft := true |} |};
  page ← match c_parent c with
         | Some parent => move page parent (a_position a)
         | None => mret page
         end;
  create_title (a_language a) (a_title a) page (a_menu_title a)
    (Some (c_slug c)) (a_redirect a) (a_meta_description a) None
    (a_overwrite_url a) false ;;
  (if a_published a then publish page (a_language a) ;; mret tt else mret tt) ;;
  (if a_with_revision a then
     user ← query thread_user;
     _create_revision page user (Some (REVISION_INITIAL_COMMENT env))
   else mret tt) ;;
  update (set_thread_user None) ;;
  reload page.

Definition create_page (a : Args) : py Store Page :=
  c ← validate a;
  check_reverse_id a c ;;
  build a c.

End create_page.

(** *** Vocabulary of the properties *)

(** Calls that leave the page and title tables alone. *)
Definition reads_tables {A} (m : py Store A) : Prop :=
  ∀ s r s', m s = (r, s') → pages s' = pages s ∧ titles s' = titles s.

(** Calls that leave the whole store alone. *)
Definition reads_only {A} (m : py Store A) : Prop :=
  ∀ s r s', m s = (r, s') → s' = s.

Definition with_apphook (h : Apphooks.apphook_arg) (a : Args) : Args :=
  {| a_title := a_title a; a_template := a_template a;
     a_language := a_language a; a_menu_title := a_menu_title a;
     a_slug := a_slug a; a_apphook := h;
     a_apphook_namespace := a_apphook_namespace a;
     a_redirect := a_redirect a; a_meta_description := a_meta_description a;
     a_created_by := a_created_by a; a_parent := a_parent a;
     a_publication_date := a_publication_date a;
     a_publication_end_date := a_publication_end_date a;
     a_in_navigation := a_in_navigation a; a_soft_root := a_soft_root a;
     a_reverse_id := a_reverse_id a;
     a_navigation_extenders := a_navigation_extenders a;
     a_published := a_published a; a_site := a_site a;
     a_login_required := a_login_required a;
     a_limit_visibility_in_menu := a_limit_visibility_in_menu a;
     a_position := a_position a; a_overwrite_url := a_overwrite_url a;
     a_xframe_options := a_xframe_options a;
     a_with_revision := a_with_revision a |}.

Definition with_application_urls (u : option string) (c : Checked) : Checked :=
  {| c_site := c_site c; c_slug := c_slug c; c_parent := c_parent c;
     c_parent_id := c_parent_id c; c_application_urls := u;
     c_created_by := c_created_by c |}.

(** The columns of the row of key [k] that the collaborators of
    [create_page] are expected to keep. *)
Definition keeps (k : nat) (s s' : Store) : Prop :=
  ∀ r, pages s !! k = Some r →
    ∃ r', pages s' !! k = Some r' ∧
          reverse_id r' = reverse_id r ∧ site r' = site r ∧
          application_urls r' = application_urls r ∧
          application_namespace r' = application_namespace r ∧
          publisher_is_draft r' = publisher_is_draft r.

Definition steady {A} (k : nat) (m : py Store A) : Prop :=
  ∀ s, ∃ x s', m s = (Ok x, s') ∧ keeps k s s'.

(** What the properties ask of the collaborators: they return, and
    they keep these columns of the page they are called on. *)
Definition collaborators_ok
    (move : Page → Page → string → py Store Page)
    (publish : Page → string → py Store bool)
    (make_revision_with_plugins :
       Page → option User → option string → py Store unit) : Prop :=
  (∀ p target pos k s, pk p = Some k →
     ∃ p' s', move p target pos s = (Ok p', s') ∧ keeps k s s' ∧
              pk p' = Some k ∧ site p' = site p) ∧
  (∀ p lang k, pk p = Some k → steady k (publish p lang)) ∧
  (∀ p u m k, pk p = Some k → steady k (make_revision_with_plugins p u m)).

(** No draft page of the requested site carries the [reverse_id] of
    the call. *)
Definition reverse_id_free (env : Env) (a : Args) (s : Store) : Prop :=
  ∀ rid, a_reverse_id a = Some rid → rid ≠ "" →
    ∀ k r, pages s !! k = Some r → publisher_is_draft r = true →
           reverse_id r = Some rid →
           site r ≠ default (current_site env) (a_site a).

(** The user that the "permissions hack" of [create_page] leaves in
    [_thread_locals.user]. *)
Definition stashed_user (c : created_by_arg) : option User :=
  match c with
  | ByUser u => Some u
  | ByName _ | ByNone => None
  end.

(** Calls that leave the store alone when they raise and that stash
    the user [u] when they return. *)
Definition stashes {A} (u : option User) (m : py Store A) : Prop :=
  ∀ s r s1, m s = (r, s1) →
    match r with
    | Ok _ => s1 = set_thread_user u s
    | Raise _ => s1 = s
    end.

(** *** A site with one page and one registered application *)

Definition sample_app : Apphooks.AppClass :=
  {| Apphooks.cls_name := "SampleApp";
     Apphooks.cls_module := "sampleapp.cms_app";
     Apphooks.app_name := Some "sample" |}.

Definition demo_env : Env :=
  {| reversion_installed := false;
     TEMPLATE_INHERITANCE_MAGIC := "INHERIT";
     TEMPLATES := ["page.html"];
     get_template := λ _, Ok tt;
     current_site := 1;
     get_language_list := λ _, ["en"; "de"];
     cms_enabled_menus := [];
     accepted_limitations := [None; Some 1; Some 2];
     REVISION_INITIAL_COMMENT := "Initial version.";
     apps := {[ "SampleApp" := sample_app ]};
     slugify := λ source, source |}.

Definition home_row : PageRow :=
  {| created_by := Some "python-api"; changed_by := Some "python-api";
     parent_id := None; publication_date := None;
     publication_end_date := None; in_navigation := true;
     soft_root := false; reverse_id := Some "home";
     navigation_extenders := None; template := "page.html";
     application_urls := None; application_namespace := None;
     site := 1; login_required := false;
     limit_visibility_in_menu := None; xframe_options := 0;
     publisher_is_draft := true |}.

Definition demo_store : Store :=
  {| pages := {[ 1 := home_row ]}; titles := ∅; thread_user := None |}.

Definition demo_move : Page → Page → string → py Store Page :=
  λ p _ _, mret p.

Definition demo_publish : Page → string → py Store bool :=
  λ _ _, mret true.

Definition demo_revision : Page → option User → option string → py Store unit :=
  λ _ _ _, mret tt.

(** [create_page("news", TEMPLATE_INHERITANCE_MAGIC, "en", ...)] with the
    given apphook, namespace, reverse id and site, the other arguments
    at their defaults. *)
Definition demo_args (apphook : Apphooks.apphook_arg)
    (namespace reverse_id : option string) (site : option nat) : Args :=
  {| a_title := "news"; a_template := "INHERIT"; a_language := "en";
     a_menu_title := None; a_slug := None; a_apphook := apphook;
     a_apphook_namespace := namespace; a_redirect := None;
     a_meta_description := None; a_created_by := ByName "python-api";
     a_parent := None; a_publication_date := None;
     a_publication_end_date := None; a_in_navigation := false;
     a_soft_root := false; a_reverse_id := reverse_id;
     a_navigation_extenders := None; a_published := false;
     a_site := site; a_login_required := false;
     a_limit_visibility_in_menu := None; a_position := "last-child";
     a_overwrite_url := None; a_xframe_options := 0;
     a_with_revision := false |}.

End Pages.

(** ** Plugin placer *)

Module Plugins.

(** The columns of a row of the [CMSPlugin] table that [add_plugin]
    reads or writes; the position column is a positive small integer,
    hence a natural number. *)
Record Row := {
  plugin_type : string;
  placeholder : nat;
  position : nat;
  language : string;
  parent_id : option nat
}.

Global Instance Row_eq_dec : EqDecision Row.
Proof. solve_decision. Defined.

(** A [CMSPlugin] instance: the columns and the primary key, [None] as
    long as the instance has not been saved. *)
Record CMSPlugin := {
  pk : option nat;
  row :> Row
}.

Global Instance CMSPlugin_eq_dec : EqDecision CMSPlugin.
Proof. solve_decision. Defined.

Definition bump_row (r : Row) : Row :=
  {| plugin_type := plugin_type r; placeholder := placeholder r;
     position := position r + 1; language := language r;
     parent_id := parent_id r |}.

(** [pl.position += 1] *)
Definition bump (p : CMSPlugin) : CMSPlugin :=
  {| pk := pk p; row := bump_row p |}.

(** A subclass of [CMSPluginBase]: its [__name__] and its [model]. *)
Record PluginClass := {
  cls_name : string;
  model : string
}.

Global Instance PluginClass_eq_dec : EqDecision PluginClass.
Proof. solve_decision. Defined.

(** What a caller can pass as [plugin_type]: a [CMSPluginBase]
    subclass, a string, or another object, of which it matters whether
    it has a [__module__] attribute without being a class, in which
    case [issubclass] raises. *)
Inductive plugin_type_arg :=
  | TypeClass (c : PluginClass)
  | TypeName (name : string)
  | TypeOther (module_not_class : bool).

(** What a caller can pass as [placeholder]. *)
Inductive placeholder_arg :=
  | IsPlaceholder (id : nat)
  | NotPlaceholder.

(** The keyword arguments [**data] of the plugin model; they are taken
    to name fields of the model, so that the constructor of the model
    raises nothing. *)
Definition Data := list (string * string).

(** The instance of the plugin model that [add_plugin] returns: the
    attributes copied by [set_base_attr] and the model's own fields. *)
Record Plugin := {
  base : CMSPlugin;
  plugin_model : string;
  fields : Data
}.

(** The store: the [CMSPlugin] table and the tables of the plugin
    models, both keyed by primary key. *)
Record Store := {
  plugins : gmap nat Row;
  models : gmap nat (string * Data)
}.

Definition set_plugins (f : gmap nat Row → gmap nat Row) (s : Store) : Store :=
  {| plugins := f (plugins s); models := models s |}.

(** The instance built from a row that a query fetched. *)
Definition fetched (kr : nat * Row) : CMSPlugin :=
  {| pk := Some kr.1; row := kr.2 |}.

(** [CMSPlugin.objects.filter(...)], evaluated *)
Definition select (P : Row → bool) (s : Store) : list CMSPlugin :=
  fetched <$> filter (λ kr, P kr.2 = true) (map_to_list (plugins s)).

(** [CMSPlugin.objects.filter(...).count()] *)
Definition count (P : Row → bool) (s : Store) : nat :=
  length (select P s).

(** [instance.save()]: an instance without primary key is inserted
    under a fresh one, an instance with a primary key replaces the row
    of that key. *)
Definition save (p : CMSPlugin) : py Store CMSPlugin := λ s,
  match pk p with
  | Some k => (Ok p, set_plugins <[k := row p]> s)
  | None =>
      let k := fresh (dom (plugins s)) in
      (Ok {| pk := Some k; row := p |}, set_plugins <[k := row p]> s)
  end.

(** [for pl in qs: pl.position += 1; pl.save()] *)
Definition shift (qs : list CMSPlugin) : py Store unit :=
  for_each qs (λ pl, save (bump pl) ;; mret tt).

Section add_plugin.

(** [plugin_pool.plugins], by name. *)
Variable plugin_pool : gmap string PluginClass.

(** Truth value of [CMSPlugin.node_order_by]. *)
Variable node_order_by : bool.

(** [plugin_base.move(target, pos=position)] of the tree library. *)
Variable move : CMSPlugin → CMSPlugin → string → py Store CMSPlugin.

Definition _verify_plugin_type (plugin_type : plugin_type_arg)
    : result (string * string) :=
  match plugin_type with
  | TypeClass c =>
      py_assert (bool_decide (c ∈ (map_to_list plugin_pool).*2)) ;;
      mret (model c, cls_name c)
  | TypeName name =>
      match plugin_pool !! name with
      | Some c => mret (model c, name)
      | None =>
          Raise (TypeError "plugin_type must be CMSPluginBase subclass or string")
      end
  | TypeOther true =>
      Raise (TypeError "issubclass() arg 1 must be a class")
  | TypeOther false =>
      Raise (TypeError "plugin_type must be CMSPluginBase subclass or string")
  end.

(** [add_root(instance=plugin_base)] of the tree library saves the new
    instance as a root node; the tree columns it fills in are not read
    by [add_plugin]. *)
Definition add_root (p : CMSPlugin) : py Store CMSPlugin := save p.

(** [plugin.save()] on the instance of the plugin model: the row of the
    base table and the row of the model's table. *)
Definition save_plugin (p : Plugin) : py Store unit := λ s,
  match pk (base p) with
  | Some k =>
      (Ok tt, {| plugins := <[k := row (base p)]> (plugins s);
                 models := <[k := (plugin_model p, fields p)]> (models s) |})
  | None => (Ok tt, s)
  end.

(** The branch [if target:] up to the renumbering loop: the new
    position, the position keyword handed to [move], and the parent. *)
Definition place_at_target (target : CMSPlugin) (lang : string) (ph : nat)
    (pos : string) : py Store (nat * string * option nat) :=
  '(new_pos, pos, parent) ←
    (if bool_decide (pos = "last-child") then
       n ← query (count (λ r, bool_decide (parent_id r = pk target)));
       mret (n, (if node_order_by then "sorted-child" else pos), pk target)
     else if bool_decide (pos = "first-child") then
       mret (0, (if node_order_by then "sorted-child" else pos), pk target)
     else if bool_decide (pos = "left") then
       mret (position target,
             (if node_order_by then "sorted-sibling" else pos),
             parent_id target)
     else if bool_decide (pos = "right") then
       mret (position target + 1,
             (if node_order_by then "sorted-sibling" else pos),
             parent_id target)
     else raise (Exception ("position not supported: " +:+ pos)));
  qs ← query (select (λ r,
          bool_decide (language r = lang) &&
          bool_decide (parent_id r =
                         if bool_decide (pos = "last-child")
                            || bool_decide (pos = "first-child")
                         then pk target else parent_id target) &&
          bool_decide (new_pos ≤ position r) &&
          bool_decide (placeholder r = ph)));
  shift qs ;;
  mret (new_pos, pos, parent).

(** The branch [else:] (no target). *)
Definition place_at_root (lang : string) (ph : nat) (pos : string)
    : py Store (nat * string * option nat) :=
  new_pos ←
    (if bool_decide (pos = "last-child") then
       query (count (λ r,
          bool_decide (language r = lang) &&
          bool_decide (parent_id r = None) &&
          bool_decide (placeholder r = ph)))
     else
       qs ← query (select (λ r,
               bool_decide (language r = lang) &&
               bool_decide (parent_id r = None) &&
               bool_decide (0 ≤ position r) &&
               bool_decide (placeholder r = ph)));
       shift qs ;;
       mret 0);
  mret (new_pos, pos, None).

Definition add_plugin (placeholder : placeholder_arg)
    (plugin_type : plugin_type_arg) (lang : string) (pos : string)
    (target : option CMSPlugin) (data : Data) : py Store Plugin :=
  ph ← lift (match placeholder with
             | IsPlaceholder id => Ok id
             | NotPlaceholder => Raise AssertionError
             end);
  '(plugin_model, plugin_type) ← lift (_verify_plugin_type plugin_type);
  '(new_pos, pos, parent) ←
    match target with
    | Some t => place_at_target t lang ph pos
    | None => place_at_root lang ph pos
    end;
  plugin_base ← add_root
    {| pk := None;
       row := {| plugin_type := plugin_type; placeholder := ph;
                 position := new_pos; language := lang;
                 parent_id := parent |} |};
  plugin_base ←
    match target with
    | Some t => move plugin_base t pos
    | None => mret plugin_base
    end;
  let plugin := {| base := plugin_base; plugin_model := plugin_model;
                   fields := data |} in
  save_plugin plugin ;;
  mret plugin.

End add_plugin.

(** *** Vocabulary of the properties *)

(** The rows at root level of a placeholder in a language. *)
Definition root_level (lang : string) (ph : nat) (r : Row) : bool :=
  bool_decide (language r = lang) && bool_decide (parent_id r = None) &&
  bool_decide (placeholder r = ph).

Definition bump_if (P : Row → bool) (r : Row) : Row :=
  if P r then bump_row r else r.

(** The primary keys of the root-level rows, and the positions that
    the rows of given keys have in a store. *)
Definition root_keys (lang : string) (ph : nat) (s : Store) : list nat :=
  (filter (λ kr, root_level lang ph kr.2 = true) (map_to_list (plugins s))).*1.

Definition positions_of (ks : list nat) (s : Store) : list nat :=
  omap (λ k, position <$> plugins s !! k) ks.

(** The positions of the root-level rows of a placeholder and language
    in a plugin table. *)
Definition root_positions (lang : string) (ph : nat) (t : gmap nat Row)
    : list nat :=
  (λ kr : nat * Row, position kr.2) <$>
  filter (λ kr : nat * Row, root_level lang ph kr.2 = true) (map_to_list t).

(** The rows that an insertion beside a target renumbers: those of the
    language and placeholder of the call that share the target's parent
    and sit at or after the new position. *)
Definition beside (lang : string) (ph : nat) (parent : option nat)
    (new_pos : nat) (r : Row) : bool :=
  bool_decide (language r = lang) && bool_decide (parent_id r = parent) &&
  bool_decide (new_pos ≤ position r) && bool_decide (placeholder r = ph).

(** *** A store with three plugins *)

Definition text_row (ph pos : nat) (lang : string) (parent : option nat) : Row :=
  {| plugin_type := "TextPlugin"; placeholder := ph; position := pos;
     language := lang; parent_id := parent |}.

Definition demo_store : Store :=
  {| plugins := <[1 := text_row 7 0 "en" None]>
                  (<[2 := text_row 7 1 "en" None]>
                     (<[3 := text_row 8 0 "en" None]> ∅));
     models := ∅ |}.

Definition demo_pool : gmap string PluginClass :=
  {[ "TextPlugin" := {| cls_name := "TextPlugin"; model := "Text" |} ]}.

Definition demo_move : CMSPlugin → CMSPlugin → string → py Store CMSPlugin :=
  λ p _ _, mret p.

End Plugins.

(** ** Publication workflow *)

Module Publication.

Record User := {
  username : string
}.

(** The columns that the publication functions read; [path] is the
    materialized path of the tree library, which orders the pages. *)
Record PageRow := {
  publisher_is_draft : bool;
  site : nat;
  path : string
}.

Record Page := {
  pk : option nat;
  row :> PageRow
}.

Global Instance PageRow_eq_dec : EqDecision PageRow.
Proof. solve_decision. Defined.

Global Instance Page_eq_dec : EqDecision Page.
Proof. solve_decision. Defined.

Record TitleRow := {
  page : nat;
  language : string;
  published : bool
}.

(** The tables, which the collaborators read and write. *)
Record DB := {
  pages : gmap nat PageRow;
  titles : gmap nat TitleRow
}.

(** A call of a collaborator that the properties speak about:
    [page.publish(lang)] with the primary key of the page, the current
    user it ran under and the value it returned ([None] when it
    raised), and [activate(lang)]. *)
Inductive Call :=
  | Published (page : option nat) (lang : string) (acting : option string)
      (returned : option bool)
  | Activated (lang : option string).

(** The store: the tables, the current user of
    [cms.utils.permissions], and the calls made so far, oldest first.
    The list of calls is not part of the program: it records what the
    program did. *)
Record Store := {
  db : DB;
  acting_user : option string;
  calls : list Call
}.

Definition set_acting_user (u : option string) (s : Store) : Store :=
  {| db := db s; acting_user := u; calls := calls s |}.

Definition pk_le {A} (a b : nat * A) : Prop := a.1 ≤ b.1.

Global Instance pk_le_dec {A} : RelDecision (@pk_le A).
Proof. intros a b. unfold pk_le. apply _. Defined.

(** The rows of a table in the order of their primary keys, the order
    in which a query without ordering is taken to return them. *)
Definition by_pk {A} (t : gmap nat A) : list (nat * A) :=
  merge_sort pk_le (map_to_list t).

(** Modelled from the spec: the pages are the nodes of the content
    tree, and a query on pages returns them in tree order, the order
    of their [path]. *)
Definition tree_le (a b : nat * PageRow) : Prop :=
  String.le (path a.2) (path b.2).

Global Instance tree_le_dec : RelDecision tree_le.
Proof. intros a b. unfold tree_le. apply _. Defined.

Definition in_tree_order (t : gmap nat PageRow) : list (nat * PageRow) :=
  merge_sort tree_le (map_to_list t).

(** Modelled from the spec: [page.reload()] returns the page as
    refreshed from the store, [Page.objects.get(pk=self.pk)]. *)
Definition get_page (k : option nat) : py Store Page := λ s,
  match k ≫= (pages (db s) !!.) with
  | Some r => (Ok {| pk := k; row := r |}, s)
  | None => (Raise DoesNotExist, s)
  end.

Definition reload (p : Page) : py Store Page := get_page (pk p).

(** [activate(lang)] of [django.utils.translation] *)
Definition activate (lang : option string) : py Store unit := λ s,
  (Ok tt, {| db := db s; acting_user := acting_user s;
             calls := calls s ++ [Activated lang] |}).

(** Modelled from the spec: [current_user] of [cms.utils.permissions],
    the context manager that stashes the acting user for the duration
    of the block and puts the previous one back after it. *)
Definition current_user {A} (name : string) (block : py Store A) : py Store A :=
  old ← query acting_user;
  update (set_acting_user (Some name)) ;;
  a ← block;
  update (set_acting_user old) ;;
  mret a.

Section publication.

(** [page.publish(language)], given the current user it runs under. *)
Variable publish_db : Page → string → option string → DB → result bool * DB.

(** [page.has_publish_permission(request)], given [request.user]. *)
Variable has_publish_permission : Page → User → DB → bool.

Definition publish (p : Page) (lang : string) : py Store bool := λ s,
  let '(r, db') := publish_db p lang (acting_user s) (db s) in
  (r, {| db := db'; acting_user := acting_user s;
         calls := calls s ++
           [Published (pk p) lang (acting_user s)
              match r with Ok b => Some b | Raise _ => None end] |}).

Definition publish_page (page : Page) (user : User) (lang : string)
    : py Store Page :=
  page ← reload page;
  allowed ← query (λ s, has_publish_permission page user (db s));
  (if negb allowed then raise PermissionDenied else mret tt) ;;
  current_user (username user) (publish page lang) ;;
  reload page.

(** [title_set__published=True]: the page has a published title. *)
Definition has_published_title (d : DB) (k : nat) : bool :=
  bool_decide (Exists (λ kt : nat * TitleRow,
                         page kt.2 = k ∧ published kt.2 = true)
                 (map_to_list (titles d))).

(** [qs] of [publish_pages], evaluated. *)
Definition selected (include_unpublished : bool) (site_id : option nat)
    (d : DB) : list Page :=
  let qs := filter (λ kr : nat * PageRow, publisher_is_draft kr.2 = true)
              (in_tree_order (pages d)) in
  let qs := if negb include_unpublished
            then filter (λ kr : nat * PageRow,
                           has_published_title d kr.1 = true) qs
            else qs in
  let qs := match site_id with
            | Some i => filter (λ kr : nat * PageRow, site kr.2 = i) qs
            | None => qs
            end in
  (λ kr : nat * PageRow, {| pk := Some kr.1; row := kr.2 |}) <$> qs.

(** [titles.values_list("language", flat=True)] *)
Definition title_languages (include_unpublished : bool) (p : Page) (d : DB)
    : list string :=
  let titles := filter (λ kt : nat * TitleRow, Some (page kt.2) = pk p)
                  (by_pk (titles d)) in
  let titles := if negb include_unpublished
                then filter (λ kt : nat * TitleRow, published kt.2 = true)
                       titles
                else titles in
  (λ kt : nat * TitleRow, language kt.2) <$> titles.

(** The loop over the languages of one page; the state of the loop is
    [output_language] and [add]. *)
Fixpoint publish_languages (p : Page) (language : option string)
    (langs : list string) (output_language : option string) (add : bool)
    : py Store (option string * bool) :=
  match langs with
  | [] => mret (output_language, add)
  | lang :: langs' =>
      if bool_decide (language = None) || bool_decide (Some lang = language)
      then
        let output_language :=
          if truthy_ostr output_language then output_language
          else Some lang in
        ok ← publish p lang;
        publish_languages p language langs' output_language
          (if negb ok then false else add)
      else publish_languages p language langs' output_language add
  end.

(** One turn of the loop over the pages, up to its [yield]. *)
Definition publish_one (include_unpublished : bool) (language : option string)
    (output_language : option string) (p : Page)
    : py Store (option string * (Page * bool)) :=
  langs ← query (λ s, title_languages include_unpublished p (db s));
  '(output_language, add) ←
    publish_languages p language langs output_language true;
  activate output_language ;;
  mret (output_language, (p, add)).

Fixpoint publish_each (include_unpublished : bool) (language : option string)
    (output_language : option string) (qs : list Page)
    : py Store (list (Page * bool)) :=
  match qs with
  | [] => mret []
  | p :: qs' =>
      '(output_language, item) ←
        publish_one include_unpublished language output_language p;
      items ← publish_each include_unpublished language output_language qs';
      mret (item :: items)
  end.

(** [list(publish_pages(...))]: the generator run to its end. *)
Definition publish_pages (include_unpublished : bool)
    (language : option string) (site_id : option nat)
    : py Store (list (Page * bool)) :=
  qs ← query (λ s, selected include_unpublished site_id (db s));
  publish_each include_unpublished language None qs.

End publication.

(** *** Vocabulary of the properties *)















(** *** A site with one draft page in two languages *)

Definition demo_db : DB :=
  {| pages := {[ 1 := {| publisher_is_draft := true; site := 1; path := "0001" |} ]};
     titles := {[ 1 := {| page := 1; language := "en"; published := true |};
                  2 := {| page := 1; language := "de"; published := true |} ]} |}.

Definition demo_store : Store :=
  {| db := demo_db; acting_user := None; calls := [] |}.

(** A [publish] that fails on "en" and succeeds on the other
    languages, and a permission engine that lets "editor" publish. *)
Definition demo_publish_db
    : Page → string → option string → DB → result bool * DB :=
  λ p l u d, (Ok (bool_decide (l ≠ "en")), d).

Definition demo_permission : Page → User → DB → bool :=
  λ p u d, bool_decide (username u = "editor").



End Publication.

(** ** Language copy *)

Module LanguageCopy.

(** The columns of [CMSPlugin] that [copy_plugins_to_language] reads;
    [path] is the materialized path of the tree library, which orders
    the plugins of a placeholder. *)
Record Row := {
  placeholder : nat;
  language : string;
  path : string;
  plugin_type : string
}.

Record CMSPlugin := {
  pk : option nat;
  row :> Row
}.

Global Instance Row_eq_dec : EqDecision Row.
Proof. solve_decision. Defined.

Global Instance CMSPlugin_eq_dec : EqDecision CMSPlugin.
Proof. solve_decision. Defined.

(** A call of [copy_plugins_to]: its arguments and the list it
    returned ([None] when it raised). *)
Record CopyCall := {
  c_plugins : list CMSPlugin;
  c_placeholder : nat;
  c_language : string;
  c_returned : option (list CMSPlugin)
}.

(** The store: the plugin table, and the calls of [copy_plugins_to]
    made so far, oldest first.  The list of calls is not part of the
    program: it records what the program did. *)
Record Store := {
  plugins : gmap nat Row;
  copy_calls : list CopyCall
}.

(** [order_by('path')] *)
Definition path_le (p q : CMSPlugin) : Prop := String.le (path p) (path q).

Global Instance path_le_dec : RelDecision path_le.
Proof. intros p q. unfold path_le. apply _. Defined.

Global Instance path_le_total : Total path_le.
Proof. intros p q. unfold path_le. apply (total String.le). Qed.

(** [placeholder.cmsplugin_set.filter(language=...)], evaluated *)
Definition in_language (lang : string) (ph : nat) (t : gmap nat Row)
    : list CMSPlugin :=
  (λ kr : nat * Row, {| pk := Some kr.1; row := kr.2 |}) <$>
  filter (λ kr : nat * Row, placeholder kr.2 = ph ∧ language kr.2 = lang)
         (map_to_list t).

(** [... .exists()] *)
Definition exists_in_language (lang : string) (ph : nat) (t : gmap nat Row)
    : bool :=
  match in_language lang ph t with [] => false | _ => true end.

Section copy_plugins_to_language.

(** [page.get_placeholders()]: the placeholders of the page. *)
Variable get_placeholders : nat → list nat.

(** [copy_plugins.copy_plugins_to(plugins, placeholder, language)] on
    the plugin table. *)
Variable copy_db :
  list CMSPlugin → nat → string → gmap nat Row →
  result (list CMSPlugin) * gmap nat Row.

Definition copy_plugins_to (old_plugins : list CMSPlugin) (ph : nat)
    (lang : string) : py Store (list CMSPlugin) := λ s,
  let '(r, t') := copy_db old_plugins ph lang (plugins s) in
  (r, {| plugins := t';
         copy_calls := copy_calls s ++
           [{| c_plugins := old_plugins; c_placeholder := ph;
               c_language := lang;
               c_returned := match r with
                             | Ok l => Some l
                             | Raise _ => None
                             end |}] |}).

(** The loop over the placeholders; its state is [copied]. *)
Fixpoint copy_each (placeholders : list nat)
    (source_language target_language : string) (only_empty : bool)
    (copied : nat) : py Store nat :=
  match placeholders with
  | [] => mret copied
  | ph :: placeholders' =>
      occupied ← query (λ s, exists_in_language target_language ph (plugins s));
      if negb only_empty || negb occupied then
        plugins ← query (λ s, merge_sort path_le
                                (in_language source_language ph (plugins s)));
        copied_plugins ← copy_plugins_to plugins ph target_language;
        copy_each placeholders' source_language target_language only_empty
          (copied + length copied_plugins)
      else
        copy_each placeholders' source_language target_language only_empty
          copied
  end.

Definition copy_plugins_to_language (page : nat)
    (source_language target_language : string) (only_empty : bool)
    : py Store nat :=
  copy_each (get_placeholders page) source_language target_language
    only_empty 0.

End copy_plugins_to_language.

(** *** Vocabulary of the properties *)

(** A copy of a plugin into a placeholder and a language. *)
Definition copy_of (ph : nat) (lang : string) (old new : CMSPlugin) : Prop :=
  placeholder new = ph ∧ language new = lang ∧
  plugin_type new = plugin_type old.

(** What the properties ask of [copy_plugins_to]: it returns one copy
    per plugin it is given, in the same order and with the paths in the
    same order; it keeps the rows of the table, and the rows it adds
    are in the placeholder and language it copies to. *)
Definition copies_faithfully
    (copy_db : list CMSPlugin → nat → string → gmap nat Row →
               result (list CMSPlugin) * gmap nat Row) : Prop :=
  ∀ old ph lang t, ∃ copied t',
    copy_db old ph lang t = (Ok copied, t') ∧
    Forall2 (copy_of ph lang) old copied ∧
    (Sorted path_le old → Sorted path_le copied) ∧
    (∀ k r, t !! k = Some r → t' !! k = Some r) ∧
    (∀ k r, t !! k = None → t' !! k = Some r →
            placeholder r = ph ∧ language r = lang).





(** [copy_plugins_to] stores what it copies: after it has copied a
    list that is not empty, the placeholder has a plugin in the
    language copied to. *)
Definition stores_copies
    (copy_db : list CMSPlugin → nat → string → gmap nat Row →
               result (list CMSPlugin) * gmap nat Row) : Prop :=
  ∀ old ph lang t copied t',
    copy_db old ph lang t = (Ok copied, t') → old ≠ [] →
    exists_in_language lang ph t' = true.

(** Nothing is left to copy into the placeholder: it has a plugin in
    the target language, or none in the source language. *)
Definition settled (src tgt : string) (t : gmap nat Row) (ph : nat) : Prop :=
  exists_in_language tgt ph t = true ∨ in_language src ph t = [].



(** The copies that the calls of [copy_plugins_to] returned, oldest
    first. *)
Definition copies (calls : list CopyCall) : list CMSPlugin :=
  c ← calls; default [] (c_returned c).
(** *** A page with two placeholders *)

(** A [copy_plugins_to] that inserts the copies under fresh keys and
    keeps the paths. *)
Fixpoint demo_copy_db (old : list CMSPlugin) (ph : nat) (lang : string)
    (t : gmap nat Row) : list CMSPlugin * gmap nat Row :=
  match old with
  | [] => ([], t)
  | p :: old' =>
      let k := fresh (dom t) in
      let r := {| placeholder := ph; language := lang; path := path p;
                  plugin_type := plugin_type p |} in
      let '(copied, t') := demo_copy_db old' ph lang (<[k := r]> t) in
      ({| pk := Some k; row := r |} :: copied, t')
  end.

Definition demo_copy (old : list CMSPlugin) (ph : nat) (lang : string)
    (t : gmap nat Row) : result (list CMSPlugin) * gmap nat Row :=
  let '(copied, t') := demo_copy_db old ph lang t in (Ok copied, t').

Definition demo_placeholders (page : nat) : list nat := [7; 8].

Definition demo_store : Store :=
  {| plugins :=
       {[ 1 := {| placeholder := 7; language := "en"; path := "0002";
                  plugin_type := "TextPlugin" |};
          2 := {| placeholder := 7; language := "en"; path := "0001";
                  plugin_type := "PicturePlugin" |};
          3 := {| placeholder := 8; language := "en"; path := "0003";
                  plugin_type := "TextPlugin" |};
          4 := {| placeholder := 8; language := "de"; path := "0004";
                  plugin_type := "TextPlugin" |} ]};
     copy_calls := [] |}.

End LanguageCopy.

(** ** Page users *)

Module PageUsers.

(** Attribute values, classes and objects.  An object is reached
    through its address in the heap, so that two names of one object
    see each other's assignments. *)
Inductive Value :=
  | VNone
  | VBool (b : bool)
  | VInt (n : nat)
  | VStr (s : string)
  | VRef (address : nat).

Global Instance Value_eq_dec : EqDecision Value.
Proof. solve_decision. Defined.

Inductive Class :=
  | UserModel
  | PageUser
  | OtherClass.

Record Obj := {
  class : Class;
  attrs : gmap string Value
}.

(** [isinstance(x, get_user_model())]; [PageUser] derives from the
    user model. *)
Definition is_user_model (o : Obj) : bool :=
  match class o with
  | UserModel | PageUser => true
  | OtherClass => false
  end.

(** The dictionary [data] of [create_page_user]. *)
Record Data := {
  can_add_page : bool;
  can_view_page : bool;
  can_change_page : bool;
  can_delete_page : bool;
  can_recover_page : bool;
  can_add_pageuser : bool;
  can_change_pageuser : bool;
  can_delete_pageuser : bool;
  can_add_pagepermission : bool;
  can_change_pagepermission : bool;
  can_delete_pagepermission : bool
}.

(** What the function does to the database: [obj.save()] with the
    attributes of the object at that moment, and
    [save_permissions(data, obj)]. *)
Inductive Effect :=
  | Saved (address : nat) (snapshot : gmap string Value)
  | SavedPermissions (data : Data) (address : nat).

(** The store: the heap of objects and the effects on the database so
    far, oldest first. *)
Record Store := {
  heap : gmap nat Obj;
  effects : list Effect
}.

Definition set_heap (f : gmap nat Obj → gmap nat Obj) (s : Store) : Store :=
  {| heap := f (heap s); effects := effects s |}.

Definition perform (e : Effect) : py Store unit := λ s,
  (Ok tt, {| heap := heap s; effects := effects s ++ [e] |}).

(** [getattr(obj, name)] and [setattr(obj, name, value)] *)
Definition getattr (address : nat) (name : string) : py Store Value := λ s,
  match heap s !! address ≫= λ o, attrs o !! name with
  | Some v => (Ok v, s)
  | None => (Raise (AttributeError name), s)
  end.

Definition setattr (address : nat) (name : string) (v : Value)
    : py Store unit :=
  update (set_heap (alter (λ o, {| class := class o;
                                   attrs := <[name := v]> (attrs o) |})
                      address)).

(** A new object of a class, with the attributes given to the
    constructor. *)
Definition new (c : Class) (a : gmap string Value) : py Store nat := λ s,
  let address := fresh (dom (heap s)) in
  (Ok address, set_heap <[address := {| class := c; attrs := a |}]> s).

(** [obj.save()]; the primary key that the database gives to a new row
    is not modelled. *)
Definition save (address : nat) : py Store unit := λ s,
  match heap s !! address with
  | Some o => perform (Saved address (attrs o)) s
  | None => (Raise (AttributeError "save"), s)
  end.

Section create_page_user.

(** [[f.name for f in get_user_model()._meta.local_fields]] *)
Variable local_fields : list string.

(** The function below [if grant_all:]. *)
Definition create (created_by user : nat) (data : Data) : py Store nat :=
  is_user ← query (λ s, from_option is_user_model false (heap s !! created_by));
  lift (py_assert is_user) ;;
  setattr user "is_staff" (VBool true) ;;
  setattr user "is_active" (VBool true) ;;
  page_user ← new PageUser {[ "created_by" := VRef created_by ]};
  for_each local_fields (λ field,
    v ← getattr user field;
    setattr page_user field v) ;;
  save user ;;
  save page_user ;;
  perform (SavedPermissions data page_user) ;;
  mret user.

Definition create_page_user (created_by user : nat) (data : Data)
    (grant_all : bool) : py Store nat :=
  if grant_all then
    create created_by user
      {| can_add_page := true; can_view_page := true;
         can_change_page := true; can_delete_page := true;
         can_recover_page := true; can_add_pageuser := true;
         can_change_pageuser := true; can_delete_pageuser := true;
         can_add_pagepermission := true; can_change_pagepermission := true;
         can_delete_pagepermission := true |}
  else create created_by user data.

End create_page_user.

(** *** Vocabulary of the properties *)

(** The user object after [user.is_staff = True; user.is_active = True]. *)
Definition staffed (o : Obj) : Obj :=
  {| class := class o;
     attrs := <["is_active" := VBool true]>
                (<["is_staff" := VBool true]> (attrs o)) |}.

(** The attributes [dst] after the loop has copied [fields] from [src]. *)
Definition copy_attrs (fields : list string) (src dst : gmap string Value)
    : gmap string Value :=
  foldl (λ a f, match src !! f with Some v => <[f := v]> a | None => a end)
    dst fields.

(** The dictionary [data] of the call that [grant_all] leads to. *)
Definition all_granted : Data :=
  {| can_add_page := true; can_view_page := true;
     can_change_page := true; can_delete_page := true;
     can_recover_page := true; can_add_pageuser := true;
     can_change_pageuser := true; can_delete_pageuser := true;
     can_add_pagepermission := true; can_change_pagepermission := true;
     can_delete_pagepermission := true |}.

(** *** Two users *)

Definition demo_fields : list string :=
  ["id"; "username"; "is_staff"; "is_active"].

Definition demo_admin : Obj :=
  {| class := UserModel;
     attrs := {[ "id" := VInt 1; "username" := VStr "admin";
                 "is_staff" := VBool true; "is_active" := VBool true ]} |}.

Definition demo_user : Obj :=
  {| class := UserModel;
     attrs := {[ "id" := VInt 2; "username" := VStr "bob";
                 "is_staff" := VBool false; "is_active" := VBool false ]} |}.

Definition demo_store : Store :=
  {| heap := {[ 1 := demo_admin; 2 := demo_user ]}; effects := [] |}.

End PageUsers.

(** ** Permission grants *)

Module Permissions.

(** The dictionary [data] of [assign_user_to_page], which is also the
    set of its keyword arguments of the same names. *)
Record Flags := {
  can_add : bool;
  can_change : bool;
  can_delete : bool;
  can_change_advanced_settings : bool;
  can_publish : bool;
  can_change_permissions : bool;
  can_move_page : bool;
  can_view : bool
}.

Global Instance Flags_eq_dec : EqDecision Flags.
Proof. solve_decision. Defined.

(** Rows of [PagePermission] and [GlobalPagePermission]; pages, users
    and sites are given by their primary keys. *)
Record PagePermissionRow := {
  pp_page : nat;
  pp_user : nat;
  pp_grant_on : nat;
  pp_flags : Flags
}.

Record GlobalPagePermissionRow := {
  gp_user : nat;
  gp_can_recover_page : bool;
  gp_flags : Flags
}.

(** What [assign_user_to_page] returns: the instance it saved last,
    with its primary key. *)
Inductive Permission :=
  | OfPage (pk : nat) (row : PagePermissionRow)
  | Global (pk : nat) (row : GlobalPagePermissionRow).

(** The store: the two tables, and the table of the many-to-many
    relation [GlobalPagePermission.sites] as a set of pairs of a
    permission and a site. *)
Record Store := {
  page_permissions : gmap nat PagePermissionRow;
  global_permissions : gmap nat GlobalPagePermissionRow;
  global_permission_sites : gset (nat * nat)
}.

(** [page_permission.save()] on a new instance *)
Definition save_page_permission (r : PagePermissionRow) : py Store nat := λ s,
  let k := fresh (dom (page_permissions s)) in
  (Ok k, {| page_permissions := <[k := r]> (page_permissions s);
            global_permissions := global_permissions s;
            global_permission_sites := global_permission_sites s |}).

Definition save_global_permission (r : GlobalPagePermissionRow)
    : py Store nat := λ s,
  let k := fresh (dom (global_permissions s)) in
  (Ok k, {| page_permissions := page_permissions s;
            global_permissions := <[k := r]> (global_permissions s);
            global_permission_sites := global_permission_sites s |}).

(** [page_permission.sites.add(site)] *)
Definition sites_add (k site : nat) : py Store unit := λ s,
  (Ok tt, {| page_permissions := page_permissions s;
             global_permissions := global_permissions s;
             global_permission_sites :=
               {[ (k, site) ]} ∪ global_permission_sites s |}).

Section assign_user_to_page.

(** [Site.objects.get_current()] *)
Variable current_site : nat.

Definition assign_user_to_page (page user grant_on : nat) (flags : Flags)
    (can_recover_page grant_all global_permission : bool)
    : py Store Permission :=
  let grant_all := grant_all && negb global_permission in
  let data :=
    {| can_add := can_add flags || grant_all;
       can_change := can_change flags || grant_all;
       can_delete := can_delete flags || grant_all;
       can_change_advanced_settings :=
         can_change_advanced_settings flags || grant_all;
       can_publish := can_publish flags || grant_all;
       can_change_permissions := can_change_permissions flags || grant_all;
       can_move_page := can_move_page flags || grant_all;
       can_view := can_view flags || grant_all |} in
  let row := {| pp_page := page; pp_user := user; pp_grant_on := grant_on;
                pp_flags := data |} in
  k ← save_page_permission row;
  if global_permission then
    let row := {| gp_user := user; gp_can_recover_page := can_recover_page;
                  gp_flags := data |} in
    k ← save_global_permission row;
    sites_add k current_site ;;
    mret (Global k row)
  else mret (OfPage k row).

End assign_user_to_page.

(** *** Vocabulary of the properties *)

Definition all_flags : Flags :=
  {| can_add := true; can_change := true; can_delete := true;
     can_change_advanced_settings := true; can_publish := true;
     can_change_permissions := true; can_move_page := true;
     can_view := true |}.

End Permissions.

(** ** Draft of a page *)

Module Drafts.

Record Page := {
  pk : nat;
  publisher_is_draft : bool
}.

Section get_page_draft.

(** [page.publisher_draft], the reverse side of the one-to-one relation
    [publisher_public]; the attribute raises when no page is related. *)
Variable publisher_draft : Page → result Page.

Definition get_page_draft (page : option Page) : result (option Page) :=
  match page with
  | Some p =>
      if publisher_is_draft p then Ok (Some p)
      else d ← publisher_draft p; Ok (Some d)
  | None => Ok None
  end.

End get_page_draft.

(** *** Vocabulary of the properties *)

(** The relation [publisher_draft] only leads to draft pages. *)
Definition leads_to_drafts (publisher_draft : Page → result Page) : Prop :=
  ∀ p d, publisher_draft p = Ok d → publisher_is_draft d = true.

End Drafts.

(** * Properties *)

(** ** Results *)

Lemma py_assert_Ok b u : py_assert b = Ok u ↔ b = true.
Proof. destruct b, u; simpl; split; (done || discriminate). Qed.

(** ** Slug generator *)

Section slug_properties.
Import Slug.

Variable slugify : string → string.

Lemma append_cons_ne (s : string) a t : s +:+ String a t ≠ s.
Proof.
  induction s as [|c s IH]; [done|].
  change (String c (s +:+ String a t) ≠ String c s). congruence.
Qed.

Lemma suffixed_ne_base baseslug i : suffixed baseslug i ≠ baseslug.
Proof. apply append_cons_ne. Qed.

Lemma candidate_inj baseslug : Inj (=) (=) (candidate baseslug).
Proof.
  intros [|j] [|k] H; simpl in H; try done.
  - symmetry in H. by apply suffixed_ne_base in H.
  - by apply suffixed_ne_base in H.
  - unfold suffixed in H.
    apply (inj (String.app baseslug)), (inj (String.app "-")) in H.
    by apply (inj pretty) in H.
Qed.

(** The loop started on candidate [k] stops on the first candidate from
    [k] on that is free, provided the fuel covers the used slugs the
    candidates can still meet. *)
Lemma slug_loop_first_free used baseslug fuel : ∀ (l : list string) k,
  (∀ j, k ≤ j → candidate baseslug j ∈ used → candidate baseslug j ∈ l) →
  length l ≤ fuel →
  ∃ m, k ≤ m ∧
    (slug_loop fuel used baseslug (candidate baseslug k) (S k)
      = Some (candidate baseslug m)) ∧
    (candidate baseslug m ∉ used) ∧
    (∀ j, k ≤ j < m → candidate baseslug j ∈ used).
Proof.
  induction fuel as [|fuel IH]; intros l k Hl Hlen.
  - exists k. split; [lia|].
    assert (Hk : candidate baseslug k ∉ used).
    { intros Hin. apply Hl in Hin; [|lia].
      destruct l; [by apply elem_of_nil in Hin | simpl in Hlen; lia]. }
    simpl. rewrite bool_decide_eq_false_2 by done.
    split_and!; [done | done | intros j ?; lia].
  - simpl. case_bool_decide as Hk.
    + pose (l' := filter (λ s, s ≠ candidate baseslug k) l).
      destruct (IH l' (S k)) as (m & Hm & Hrun & Hfree & Hbusy).
      * intros j Hj Hin. apply list_elem_of_filter. split.
        -- intros Heq. apply candidate_inj in Heq. lia.
        -- apply Hl; [lia | done].
      * assert (candidate baseslug k ∈ l) as Hkl by (apply Hl; [lia | done]).
        apply list_elem_of_split in Hkl as (l1 & l2 & ->).
        subst l'. rewrite filter_app, filter_cons_False by naive_solver.
        rewrite length_app in *. simpl in Hlen.
        pose proof (length_filter (λ s, s ≠ candidate baseslug k) l1).
        pose proof (length_filter (λ s, s ≠ candidate baseslug k) l2).
        lia.
      * exists m. split_and!; [lia | exact Hrun | done |].
        intros j Hj. destruct (decide (j = k)) as [->|]; [done|].
        apply Hbusy. lia.
    + exists k. split_and!; [lia | done | done | intros j ?; lia].
Qed.

Lemma generate_valid_slug_first_free fuel titles source parent lang :
  length titles ≤ fuel →
  ∃ m, (generate_valid_slug slugify fuel titles source parent lang
         = Some (candidate (slugify source) m)) ∧
       (candidate (slugify source) m ∉ used_slugs titles parent lang) ∧
       (∀ j, j < m → candidate (slugify source) j ∈ used_slugs titles parent lang).
Proof.
  intros Hfuel. unfold generate_valid_slug.
  destruct (used_slugs titles parent lang) as [|u used] eqn:Hused.
  - exists 0. split_and!; [done | apply not_elem_of_nil | intros j ?; lia].
  - rewrite <- Hused.
    destruct (slug_loop_first_free (used_slugs titles parent lang)
                (slugify source) fuel (used_slugs titles parent lang) 0)
      as (m & _ & Hrun & Hfree & Hbusy).
    + done.
    + unfold used_slugs. rewrite length_fmap.
      etrans; [apply length_filter | done].
    + exists m. split_and!; [exact Hrun | done | intros j ?; apply Hbusy; lia].
Qed.

Lemma generate_valid_slug_is fuel titles source parent lang m :
  length titles ≤ fuel →
  candidate (slugify source) m ∉ used_slugs titles parent lang →
  (∀ j, j < m → candidate (slugify source) j ∈ used_slugs titles parent lang) →
  generate_valid_slug slugify fuel titles source parent lang
    = Some (candidate (slugify source) m).
Proof.
  intros Hfuel Hfree Hbusy.
  destruct (generate_valid_slug_first_free fuel titles source parent lang Hfuel)
    as (m' & -> & Hfree' & Hbusy').
  destruct (Nat.lt_trichotomy m' m) as [Hlt | [-> | Hlt]]; [|done|].
  - by apply Hbusy in Hlt.
  - by apply Hbusy' in Hlt.
Qed.

(** The default of [valid_slug] is never used. *)
Lemma valid_slug_first_free titles source parent lang :
  ∃ m, valid_slug slugify titles source parent lang
         = candidate (slugify source) m ∧
       (candidate (slugify source) m ∉ used_slugs titles parent lang) ∧
       (∀ j, j < m → candidate (slugify source) j ∈ used_slugs titles parent lang).
Proof.
  destruct (generate_valid_slug_first_free (length titles) titles source parent
              lang (le_n _)) as (m & Hrun & Hfree & Hbusy).
  exists m. unfold valid_slug. by rewrite Hrun.
Qed.

Lemma sibling_spec parent lang t :
  sibling parent lang t = true ↔ language t = lang ∧ page_parent t = parent.
Proof.
  unfold sibling. rewrite andb_true_iff, bool_decide_eq_true.
  destruct parent; rewrite bool_decide_eq_true; naive_solver.
Qed.

Lemma elem_of_used_slugs titles parent lang s :
  s ∈ used_slugs titles parent lang ↔
  ∃ t, t ∈ titles ∧ language t = lang ∧ page_parent t = parent ∧ slug t = s.
Proof.
  unfold used_slugs. rewrite list_elem_of_fmap. split.
  - intros (t & -> & Ht). apply list_elem_of_filter in Ht as [Hsib Hin].
    apply sibling_spec in Hsib as [??]. eauto.
  - intros (t & Ht & Hl & Hp & <-). exists t. split; [done|].
    apply list_elem_of_filter. split; [|done]. by apply sibling_spec.
Qed.

(** C1. [generate_valid_slug] returns, once the fuel covers the title
    table, a slug that no title of the same language under the same
    parent uses.  In particular, when the slugified source is "news"
    and no sibling uses "news", "news-1" or "news-2", three successive
    calls, each followed by the creation of a sibling title with the
    slug just returned, yield "news", "news-1" and "news-2". *)
Theorem generate_valid_slug_unique fuel titles source parent lang :
  length titles ≤ fuel →
  (∃ s, generate_valid_slug slugify fuel titles source parent lang = Some s ∧
        ∀ t, t ∈ titles → language t = lang → page_parent t = parent →
             slug t ≠ s)
  ∧ (slugify source = "news" →
     (∀ t, t ∈ titles → language t = lang → page_parent t = parent →
           slug t ∉ ["news"; "news-1"; "news-2"]) →
     let t1 := {| language := lang; slug := "news"; page_parent := parent |} in
     let t2 := {| language := lang; slug := "news-1"; page_parent := parent |} in
     generate_valid_slug slugify fuel titles source parent lang
       = Some "news" ∧
     generate_valid_slug slugify (S fuel) (t1 :: titles) source parent lang
       = Some "news-1" ∧
     generate_valid_slug slugify (S (S fuel)) (t2 :: t1 :: titles) source parent lang
       = Some "news-2").
Proof.
  intros Hfuel. split.
  - destruct (generate_valid_slug_first_free fuel titles source parent lang Hfuel)
      as (m & Hrun & Hfree & _).
    eexists. split; [exact Hrun|].
    intros t Ht Hl Hp Hs. apply Hfree, elem_of_used_slugs. eauto.
  - intros Hbase Hnone t1 t2.
    assert (Hout : ∀ s, s ∈ ["news"; "news-1"; "news-2"] →
                        s ∉ used_slugs titles parent lang).
    { intros s Hs (t & Ht & Hl & Hp & Heq)%elem_of_used_slugs.
      subst s. by apply (Hnone t). }
    assert (H0 : candidate (slugify source) 0 = "news") by (by rewrite Hbase).
    assert (H1 : candidate (slugify source) 1 = "news-1") by (by rewrite Hbase).
    assert (H2 : candidate (slugify source) 2 = "news-2") by (by rewrite Hbase).
    split_and!.
    + rewrite (generate_valid_slug_is fuel titles source parent lang 0);
        [by rewrite H0 | done | |intros j ?; lia].
      rewrite H0. apply Hout. set_solver.
    + rewrite (generate_valid_slug_is (S fuel) (t1 :: titles) source parent lang 1);
        [by rewrite H1 | simpl; lia | |].
      * rewrite H1. intros (t & Ht & Hl & Hp & Hs)%elem_of_used_slugs.
        apply elem_of_cons in Ht as [-> | Ht]; [done|].
        apply (Hout "news-1"); [set_solver|]. apply elem_of_used_slugs. eauto.
      * intros j Hj. assert (j = 0) as -> by lia. rewrite H0.
        apply elem_of_used_slugs. exists t1. split_and!; [set_solver | done..].
    + rewrite (generate_valid_slug_is (S (S fuel)) (t2 :: t1 :: titles)
                 source parent lang 2); [by rewrite H2 | simpl; lia | |].
      * rewrite H2. intros (t & Ht & Hl & Hp & Hs)%elem_of_used_slugs.
        apply elem_of_cons in Ht as [-> | Ht]; [done|].
        apply elem_of_cons in Ht as [-> | Ht]; [done|].
        apply (Hout "news-2"); [set_solver|]. apply elem_of_used_slugs. eauto.
      * intros j Hj. destruct j as [|[|j]]; [| |lia].
        -- rewrite H0. apply elem_of_used_slugs.
           exists t1. split_and!; [set_solver | done..].
        -- rewrite H1. apply elem_of_used_slugs.
           exists t2. split_and!; [set_solver | done..].
Qed.

End slug_properties.

Lemma generate_valid_slug_unique_witness :
  let about := {| Slug.language := "en"; Slug.slug := "about";
                  Slug.page_parent := None |} in
  let t1 := {| Slug.language := "en"; Slug.slug := "news";
               Slug.page_parent := None |} in
  let t2 := {| Slug.language := "en"; Slug.slug := "news-1";
               Slug.page_parent := None |} in
  length [about] ≤ 1 ∧
  Slug.generate_valid_slug id 1 [about] "news" None "en" = Some "news" ∧
  Slug.generate_valid_slug id 2 [t1; about] "news" None "en" = Some "news-1" ∧
  Slug.generate_valid_slug id 3 [t2; t1; about] "news" None "en" = Some "news-2".
Proof.
  intros about t1 t2. split; [simpl; lia|].
  destruct (generate_valid_slug_unique id 1 [about] "news" None "en")
    as [_ Hnews]; [simpl; lia|].
  apply Hnews; [reflexivity|].
  intros t Ht _ _. apply list_elem_of_singleton in Ht as ->.
  simpl. intros Hin. repeat (apply elem_of_cons in Hin as [Hin|Hin]; [discriminate|]).
  by apply elem_of_nil in Hin.
Defined.

(** ** Plugin placer *)

Section plugin_properties.
Import Plugins.

Lemma set_plugins_compose f g s :
  set_plugins f (set_plugins g s) = set_plugins (f ∘ g) s.
Proof. by destruct s. Qed.

Lemma fst_prod_map_id {A B} (f : A → B) (l : list (nat * A)) :
  (prod_map id f <$> l).*1 = l.*1.
Proof. induction l as [|[k a] l IH]; [done|]. rewrite !fmap_cons, IH. done. Qed.

Lemma NoDup_fst_filter_map_to_list (P : Row → bool) (m : gmap nat Row) :
  NoDup (filter (λ kr, P kr.2 = true) (map_to_list m)).*1.
Proof.
  apply NoDup_fmap_fst.
  - intros k' r1 r2 [_ H1]%list_elem_of_filter [_ H2]%list_elem_of_filter.
    apply elem_of_map_to_list in H1, H2. congruence.
  - apply NoDup_filter, NoDup_map_to_list.
Qed.

Lemma shift_fetched (l : list (nat * Row)) : ∀ s,
  NoDup l.*1 →
  shift (fetched <$> l) s =
    (Ok tt, set_plugins (λ m, list_to_map (prod_map id bump_row <$> l) ∪ m) s).
Proof.
  induction l as [|[k r] l IH]; intros s Hnd.
  - simpl. unfold mret, py_ret. f_equal. destruct s; simpl. unfold set_plugins; simpl.
    by rewrite (left_id_L ∅ (∪)).
  - rewrite fmap_cons in Hnd. apply NoDup_cons in Hnd as [Hk Hnd].
    unfold shift in *. rewrite fmap_cons. simpl. unfold mbind at 1, py_bind at 1. simpl.
    unfold mbind at 1, py_bind at 1. simpl. unfold mret at 1, py_ret at 1.
    rewrite IH by done. f_equal. rewrite set_plugins_compose.
    destruct s as [m md]. unfold set_plugins. simpl. f_equal.
    rewrite <- insert_union_l. rewrite <- insert_union_r; [done|].
    apply not_elem_of_list_to_map. by rewrite fst_prod_map_id.
Qed.

Lemma shifted_spec (P : Row → bool) (m : gmap nat Row) :
  list_to_map (prod_map id bump_row <$>
                 filter (λ kr, P kr.2 = true) (map_to_list m)) ∪ m
  = bump_if P <$> m.
Proof.
  apply map_eq. intros k. rewrite lookup_fmap.
  set (l := filter (λ kr, P kr.2 = true) (map_to_list m)).
  assert (Hnd : NoDup (prod_map id bump_row <$> l).*1).
  { rewrite fst_prod_map_id. apply NoDup_fst_filter_map_to_list. }
  destruct (m !! k) as [r|] eqn:Hk; simpl.
  - unfold bump_if. destruct (P r) eqn:HP.
    + apply lookup_union_Some_l. apply elem_of_list_to_map; [done|].
      apply list_elem_of_fmap. exists (k, r). split; [done|].
      apply list_elem_of_filter. split; [done|]. by apply elem_of_map_to_list.
    + rewrite lookup_union_r; [done|].
      apply not_elem_of_list_to_map. intros Hin.
      apply list_elem_of_fmap in Hin as ([k' r'] & -> & Hin).
      apply list_elem_of_fmap in Hin as ([k'' r''] & Heq & Hin).
      simpl in *. simplify_eq. apply list_elem_of_filter in Hin as [HP' Hin].
      apply elem_of_map_to_list in Hin. simpl in *. congruence.
  - apply lookup_union_None_2; [|done].
    apply not_elem_of_list_to_map. intros Hin.
    apply list_elem_of_fmap in Hin as ([k' r'] & -> & Hin).
    apply list_elem_of_fmap in Hin as ([k'' r''] & Heq & Hin).
    simpl in *. simplify_eq. apply list_elem_of_filter in Hin as [HP' Hin].
    apply elem_of_map_to_list in Hin. simpl in *. congruence.
Qed.

Lemma shift_select P s :
  shift (select P s) s = (Ok tt, set_plugins (fmap (bump_if P)) s).
Proof.
  unfold select. rewrite shift_fetched.
  - f_equal. destruct s as [m md]. unfold set_plugins. simpl. f_equal.
    apply shifted_spec.
  - apply NoDup_fst_filter_map_to_list.
Qed.

Variable plugin_pool : gmap string PluginClass.
Variable node_order_by : bool.
Variable move : CMSPlugin → CMSPlugin → string → py Store CMSPlugin.

Lemma add_plugin_no_target ph ty lang pos data s m tyname :
  _verify_plugin_type plugin_pool ty = Ok (m, tyname) →
  pos ≠ "last-child" →
  add_plugin plugin_pool node_order_by move (IsPlaceholder ph) ty lang pos
    None data s =
  let k := fresh (dom (plugins s)) in
  let new := {| plugin_type := tyname; placeholder := ph; position := 0;
                language := lang; parent_id := None |} in
  (Ok {| base := {| pk := Some k; row := new |}; plugin_model := m;
         fields := data |},
   {| plugins := <[k := new]> (bump_if (root_level lang ph) <$> plugins s);
      models := <[k := (m, data)]> (models s) |}).
Proof.
  intros Hty Hpos. unfold add_plugin, place_at_root.
  rewrite Hty. rewrite bool_decide_eq_false_2 by done.
  unfold mbind, py_bind, lift, query, mret, py_ret. simpl.
  rewrite shift_select. simpl.
  rewrite dom_fmap_L, insert_insert_eq.
  rewrite (map_fmap_ext _ (bump_if (root_level lang ph))); [done|].
  intros k r _. unfold bump_if, root_level. by rewrite andb_true_r.
Qed.

(** With a target, a position outside the four supported ones raises
    before anything is written. *)
Lemma add_plugin_unsupported_position_target ph ty lang pos t data s m tyname :
  _verify_plugin_type plugin_pool ty = Ok (m, tyname) →
  pos ∉ ["last-child"; "first-child"; "left"; "right"] →
  add_plugin plugin_pool node_order_by move (IsPlaceholder ph) ty lang pos
    (Some t) data s
  = (Raise (Exception ("position not supported: " +:+ pos)), s).
Proof.
  intros Hty Hpos. unfold add_plugin, place_at_target. rewrite Hty.
  rewrite !bool_decide_eq_false_2 by (intros ->; apply Hpos; set_solver).
  reflexivity.
Qed.

(** C5. With a valid plugin type, [add_plugin] at "first-child" without
    target saves the new plugin under a fresh key at position 0 at the
    root level of the placeholder and language, increments the
    position of every existing root-level row of that placeholder and
    language by one and leaves every other row as it was; root-level
    rows that occupied the positions 0..N-1 occupy 1..N afterwards. *)
Theorem add_plugin_first_child ph ty lang data s m tyname :
  _verify_plugin_type plugin_pool ty = Ok (m, tyname) →
  ∃ plugin s' k,
    add_plugin plugin_pool node_order_by move (IsPlaceholder ph) ty lang
      "first-child" None data s = (Ok plugin, s') ∧
    pk (base plugin) = Some k ∧
    plugins s !! k = None ∧
    plugins s' !! k = Some (row (base plugin)) ∧
    position (base plugin) = 0 ∧
    root_level lang ph (base plugin) = true ∧
    (∀ k' r, plugins s !! k' = Some r →
       plugins s' !! k' =
         Some (if root_level lang ph r then bump_row r else r)) ∧
    (∀ k', k' ≠ k → plugins s !! k' = None → plugins s' !! k' = None) ∧
    (∀ N, positions_of (root_keys lang ph s) s ≡ₚ seq 0 N →
          positions_of (root_keys lang ph s) s' ≡ₚ seq 1 N).
Proof.
  intros Hty. eexists _, _, _.
  split; [by apply add_plugin_no_target|]. simpl.
  assert (Hfresh : plugins s !! fresh (dom (plugins s)) = None).
  { apply not_elem_of_dom, is_fresh. }
  split_and!.
  - done.
  - done.
  - by rewrite lookup_insert_eq.
  - done.
  - unfold root_level. simpl. by rewrite !bool_decide_eq_true_2.
  - intros k' r Hk'. rewrite lookup_insert_ne by congruence.
    by rewrite lookup_fmap, Hk'.
  - intros k' Hne Hk'. rewrite lookup_insert_ne by done.
    by rewrite lookup_fmap, Hk'.
  - intros N HN. rewrite <- fmap_S_seq, <- HN.
    unfold positions_of, root_keys.
    set (l := filter _ _).
    assert (Hl : ∀ kr, kr ∈ l → plugins s !! kr.1 = Some kr.2
                                ∧ root_level lang ph kr.2 = true).
    { intros [k' r] [? ?%elem_of_map_to_list]%list_elem_of_filter. done. }
    clearbody l. induction l as [|[k' r] l IH]; [done|].
    rewrite !fmap_cons. simpl.
    destruct (Hl (k', r)) as [Hk' Hr]; [left|]. simpl in *.
    rewrite lookup_insert_ne by congruence.
    rewrite lookup_fmap, Hk'. simpl. unfold bump_if. rewrite Hr. simpl.
    rewrite Nat.add_1_r. rewrite IH; [done|].
    intros kr Hkr. apply Hl. by right.
Qed.
End plugin_properties.

Section plugin_examples.
Import Plugins.

Lemma add_plugin_first_child_witness :
  _verify_plugin_type demo_pool (TypeName "TextPlugin")
    = Ok ("Text", "TextPlugin") ∧
  ∃ plugin s' k,
    add_plugin demo_pool false demo_move
      (IsPlaceholder 7) (TypeName "TextPlugin") "en"
      "first-child" None [] demo_store = (Ok plugin, s') ∧
    pk (base plugin) = Some k ∧
    plugins demo_store !! k = None ∧
    plugins s' !! k = Some (row (base plugin)) ∧
    position (base plugin) = 0 ∧
    root_level "en" 7 (base plugin) = true ∧
    (∀ k' r, plugins demo_store !! k' = Some r →
       plugins s' !! k' =
         Some (if root_level "en" 7 r then bump_row r else r)) ∧
    (∀ k', k' ≠ k → plugins demo_store !! k' = None →
           plugins s' !! k' = None) ∧
    (∀ N, positions_of (root_keys "en" 7 demo_store)
            demo_store ≡ₚ seq 0 N →
          positions_of (root_keys "en" 7 demo_store) s'
            ≡ₚ seq 1 N).
Proof.
  split; [reflexivity|].
  apply (add_plugin_first_child demo_pool false demo_move
           7 (TypeName "TextPlugin") "en" [] demo_store
           "Text" "TextPlugin").
  reflexivity.
Defined.

(** C2. Without a target the position keyword is only compared with
    "last-child": on the store with three plugins,
    [add_plugin(placeholder, "TextPlugin", "en", position="bogus")]
    raises nothing and inserts the plugin at position 0, as "first-child"
    would; the same call with a target raises
    [Exception("position not supported: bogus")]. *)
Theorem add_plugin_unsupported_position_no_target :
  let call := add_plugin demo_pool false demo_move
                (IsPlaceholder 7) (TypeName "TextPlugin") "en"
                "bogus" in
  let target := {| pk := Some 1;
                   row := text_row 7 0 "en" None |} in
  (call None [] demo_store).1
    = Ok {| base :=
              {| pk := Some 4;
                 row := text_row 7 0 "en" None |};
            plugin_model := "Text"; fields := [] |} ∧
  plugins (call None [] demo_store).2 !! 1
    = Some (text_row 7 1 "en" None) ∧
  plugins (call None [] demo_store).2 !! 2
    = Some (text_row 7 2 "en" None) ∧
  call (Some target) [] demo_store
    = (Raise (Exception "position not supported: bogus"), demo_store).
Proof. vm_compute. done. Qed.

End plugin_examples.

(** ** Page builder *)

Lemma bind_run {S A B} (m : py S A) (k : A → py S B) s a s' :
  m s = (Ok a, s') → (m ≫= k) s = k a s'.
Proof. intros H. unfold mbind, py_bind. by rewrite H. Qed.

Section apphook_properties.
Import Apphooks.

Variable apps : gmap string AppClass.

Lemma _verify_apphook_string name app namespace :
  apps !! name = Some app →
  _verify_apphook apps (AppString name) namespace
    = namespace_verdict app name namespace.
Proof.
  intros Happ. unfold _verify_apphook, check_namespace.
  rewrite bool_decide_eq_true_2 by (by rewrite Happ). simpl.
  by rewrite Happ.
Qed.

Lemma _verify_apphook_instance c app namespace :
  (∃ name, apps !! name = Some c) →
  apps !! cls_name c = Some app →
  _verify_apphook apps (AppInstance c) namespace
    = namespace_verdict app (cls_name c) namespace.
Proof.
  intros [name Hreg] Happ. unfold _verify_apphook, check_namespace.
  rewrite bool_decide_eq_true_2; [simpl; by rewrite Happ|].
  apply list_elem_of_fmap. exists (name, c). split; [done|].
  by apply elem_of_map_to_list.
Qed.

(** The branch for a class returns at once: neither the registry nor
    the namespace is looked at. *)
Lemma _verify_apphook_subclass c namespace :
  _verify_apphook apps (AppSubclass c) namespace = Ok (cls_name c).
Proof. reflexivity. Qed.

End apphook_properties.

Section page_properties.
Import Pages.

Variable env : Env.
Variable move : Page → Page → string → py Store Page.
Variable publish : Page → string → py Store bool.
Variable make_revision_with_plugins :
  Page → option User → option string → py Store unit.

Lemma reads_bind {A B} (m : py Store A) (k : A → py Store B) :
  reads_tables m → (∀ a, reads_tables (k a)) → reads_tables (m ≫= k).
Proof.
  intros Hm Hk s r s'. unfold mbind, py_bind.
  destruct (m s) as [[a|e] s1] eqn:Hms; intros Hr.
  - apply Hm in Hms as [Hp Ht]. apply Hk in Hr as [Hp' Ht']. split; congruence.
  - simplify_eq. by apply Hm in Hms.
Qed.

Lemma reads_ret {A} (a : A) : reads_tables (mret a : py Store A).
Proof. intros s r s' [= <- <-]. done. Qed.

Lemma reads_lift {A} (r : result A) : reads_tables (lift r : py Store A).
Proof. intros s r' s' [= <- <-]. done. Qed.

Lemma reads_query {A} (f : Store → A) : reads_tables (query f).
Proof. intros s r' s' [= <- <-]. done. Qed.

Lemma reads_get_page k : reads_tables (get_page k).
Proof.
  intros s r s'. unfold get_page. by destruct (_ ≫= _); intros [= <- <-].
Qed.

Lemma reads_set_thread_user u : reads_tables (update (set_thread_user u)).
Proof. intros s r s' [= <- <-]. done. Qed.

Lemma reads_validate a : reads_tables (validate env a).
Proof.
  unfold validate, generate_valid_slug.
  repeat first
    [ apply reads_bind; [|intros ?]
    | apply reads_ret | apply reads_lift | apply reads_query
    | apply reads_get_page | apply reads_set_thread_user
    | match goal with |- reads_tables (if ?b then _ else _) => destruct b end
    | match goal with |- reads_tables (match ?x with _ => _ end) => destruct x end ].
Qed.

(** Inversion of a successful chain of calls. *)
Ltac py_inv H :=
  repeat match type of H with
  | (_ ≫= _) _ = _ =>
      unfold mbind at 1, py_bind at 1 in H;
      match type of H with
      | match ?m ?s with _ => _ end = _ =>
          let Hstep := fresh "Hstep" in
          destruct (m s) as [[?|?] ?] eqn:Hstep; [|discriminate]
      end
  end.

Lemma validate_site a s c s1 :
  validate env a s = (Ok c, s1) →
  c_site c = default (current_site env) (a_site a) ∧
  a_language a ∈ get_language_list env (c_site c).
Proof.
  unfold validate. intros H. py_inv H.
  injection H as <- <-. simpl. split; [done|].
  unfold lift in Hstep1. injection Hstep1 as Hl _.
  apply py_assert_Ok in Hl. by apply bool_decide_eq_true in Hl.
Qed.

Lemma reads_only_bind {A B} (m : py Store A) (k : A → py Store B) :
  reads_only m → (∀ a, reads_only (k a)) → reads_only (m ≫= k).
Proof.
  intros Hm Hk s r s'. unfold mbind, py_bind.
  destruct (m s) as [[a|e] s1] eqn:Hms; intros Hr.
  - apply Hm in Hms as ->. by apply Hk in Hr.
  - simplify_eq. by apply Hm in Hms.
Qed.

Lemma reads_only_ret {A} (a : A) : reads_only (mret a : py Store A).
Proof. by intros s r s' [= <- <-]. Qed.

Lemma reads_only_lift {A} (r : result A) : reads_only (lift r : py Store A).
Proof. by intros s r' s' [= <- <-]. Qed.

Lemma reads_only_query {A} (f : Store → A) : reads_only (query f).
Proof. by intros s r' s' [= <- <-]. Qed.

Lemma reads_only_get_page k : reads_only (get_page k).
Proof.
  intros s r s'. unfold get_page. by destruct (_ ≫= _); intros [= <- <-].
Qed.

Ltac reads_only :=
  repeat first
    [ apply reads_only_bind; [|intros ?]
    | apply reads_only_ret | apply reads_only_lift | apply reads_only_query
    | apply reads_only_get_page
    | match goal with
      | |- reads_only (if ?b then _ else _) => destruct b
      | |- reads_only (match ?x with _ => _ end) => destruct x
      end ].

(** The checks of [create_page] other than the one of the apphook are
    those of the call without apphook; with an apphook, its
    verification decides between the exception, raised before anything
    is written, and the normalized name as application binding. *)
Lemma validate_apphook a s c0 s0 :
  validate env (with_apphook Apphooks.AppNone a) s = (Ok c0, s0) →
  Apphooks.truthy_apphook (a_apphook a) = true →
  validate env a s =
    match Apphooks._verify_apphook (apps env) (a_apphook a)
            (a_apphook_namespace a) with
    | Ok name => (Ok (with_application_urls (Some name) c0), s0)
    | Raise e => (Raise e, s)
    end.
Proof.
  intros H Htruthy. unfold validate in *. simpl in H. py_inv H.
  rewrite (bind_run _ _ _ _ _ Hstep).
  rewrite (bind_run _ _ _ _ _ Hstep0).
  rewrite (bind_run _ _ _ _ _ Hstep1).
  rewrite (bind_run _ _ _ _ _ Hstep2).
  rewrite (bind_run _ _ _ _ _ Hstep3).
  rewrite (bind_run _ _ _ _ _ Hstep4).
  rewrite (bind_run _ _ _ _ _ Hstep5).
  rewrite (bind_run _ _ _ _ _ Hstep6).
  rewrite Htruthy.
  assert (Hs1 : _) by (refine ((_ : reads_only _) _ _ _ Hstep); reads_only).
  assert (Hs2 : _) by (refine ((_ : reads_only _) _ _ _ Hstep0); reads_only).
  assert (Hs3 : _) by (refine ((_ : reads_only _) _ _ _ Hstep1); reads_only).
  assert (Hs4 : _) by (refine ((_ : reads_only _) _ _ _ Hstep2);
        unfold generate_valid_slug; reads_only).
  assert (Hs5 : _) by (refine ((_ : reads_only _) _ _ _ Hstep3); reads_only).
  assert (Hs6 : _) by (refine ((_ : reads_only _) _ _ _ Hstep4); reads_only).
  assert (Hs7 : _) by (refine ((_ : reads_only _) _ _ _ Hstep5); reads_only).
  assert (Hs8 : _) by (refine ((_ : reads_only _) _ _ _ Hstep6); reads_only).
  injection Hstep7 as <- <-. injection H as <- <-.
  assert (s8 = s) as Hs by congruence.
  destruct (Apphooks._verify_apphook _ _ _) as [name|e]; simpl.
  - rewrite (bind_run (lift (Ok name) ≫= λ name, mret (Some name)) _ s8
               (Some name) s8 eq_refl).
    by rewrite (bind_run _ _ _ _ _ Hstep8).
  - unfold mbind, py_bind, lift. by rewrite Hs.
Qed.



Lemma keeps_refl k s s' : pages s' = pages s → keeps k s s'.
Proof. intros Heq r Hr. exists r. by rewrite Heq. Qed.

Lemma keeps_trans k s1 s2 s3 : keeps k s1 s2 → keeps k s2 s3 → keeps k s1 s3.
Proof.
  intros H12 H23 r Hr. destruct (H12 r Hr) as (r2 & Hr2 & ? & ? & ? & ? & ?).
  destruct (H23 r2 Hr2) as (r3 & Hr3 & ? & ? & ? & ? & ?).
  exists r3. split_and!; congruence.
Qed.

Lemma create_title_ok lang title (page : Page) mt slug rd md parent ow s :
  lang ∈ get_language_list env (site page) →
  ∃ t s', create_title env make_revision_with_plugins lang title page mt slug
            rd md parent ow false s = (Ok t, s') ∧
          pages s' = pages s.
Proof.
  intros Hlang. unfold create_title.
  rewrite bool_decide_eq_true_2 by done. unfold generate_valid_slug.
  destruct (truthy_ostr slug), (truthy_ostr ow);
    cbn; eexists _, _; (split; [reflexivity|done]).
Qed.

Lemma build_ok a c s :
  collaborators_ok move publish make_revision_with_plugins →
  a_language a ∈ get_language_list env (c_site c) →
  ∃ page s' k,
    build env move publish make_revision_with_plugins a c s = (Ok page, s') ∧
    pk page = Some k ∧ pages s !! k = None ∧
    pages s' !! k = Some (row page) ∧
    reverse_id page = a_reverse_id a ∧ site page = c_site c ∧
    application_urls page = c_application_urls c ∧
    application_namespace page = a_apphook_namespace a ∧
    publisher_is_draft page = true.
Proof.
  intros (Hmove & Hpublish & Hrev) Hlang. unfold build.
  set (k := fresh (dom (pages s))).
  set (new := {| created_by := _ |}).
  assert (Hfresh : pages s !! k = None) by apply not_elem_of_dom, is_fresh.
  set (s2 := set_pages <[k := new]> s).
  set (page0 := {| pk := Some k; row := new |}).
  assert (Hadd : add_root {| pk := None; row := new |} s = (Ok page0, s2)) by done.
  rewrite (bind_run _ _ _ _ _ Hadd).
  assert (∃ p' s3, match c_parent c with
                   | Some parent => move page0 parent (a_position a)
                   | None => mret page0
                   end s2 = (Ok p', s3) ∧ keeps k s2 s3 ∧ pk p' = Some k ∧
                   site p' = c_site c) as (p' & s3 & Hmv & Hk23 & Hpk & Hsite).
  { destruct (c_parent c) as [parent|].
    - destruct (Hmove page0 parent (a_position a) k s2 eq_refl)
        as (p' & s3 & ? & ? & ? & ?). eauto 10.
    - eexists _, _. split; [reflexivity|]. split; [by apply keeps_refl|done]. }
  rewrite (bind_run _ _ _ _ _ Hmv).
  destruct (create_title_ok (a_language a) (a_title a) p' (a_menu_title a)
              (Some (c_slug c)) (a_redirect a) (a_meta_description a) None
              (a_overwrite_url a) s3) as (t & s4 & Hct & Hp34).
  { by rewrite Hsite. }
  rewrite (bind_run _ _ _ _ _ Hct).
  assert (∃ s5, (if a_published a
                 then publish p' (a_language a) ≫= λ _ : bool, mret ()
                 else mret ()) s4 = (Ok tt, s5) ∧ keeps k s4 s5)
    as (s5 & Hpub & Hk45).
  { destruct (a_published a).
    - destruct (Hpublish p' (a_language a) k Hpk s4) as (b & s5 & Hb & ?).
      exists s5. split; [|done]. by rewrite (bind_run _ _ _ _ _ Hb).
    - eexists. split; [reflexivity|]. by apply keeps_refl. }
  rewrite (bind_run _ _ _ _ _ Hpub).
  assert (∃ s6, (if a_with_revision a
                 then query thread_user ≫= λ user,
                        _create_revision make_revision_with_plugins p' user
                          (Some (REVISION_INITIAL_COMMENT env))
                 else mret ()) s5 = (Ok tt, s6) ∧ keeps k s5 s6)
    as (s6 & Hrv & Hk56).
  { destruct (a_with_revision a).
    - destruct (Hrev p' (thread_user s5) (Some (REVISION_INITIAL_COMMENT env))
                  k Hpk s5) as ([] & s6 & Hb & ?).
      exists s6. split; [|done]. done.
    - eexists. split; [reflexivity|]. by apply keeps_refl. }
  rewrite (bind_run _ _ _ _ _ Hrv).
  rewrite (bind_run (update (set_thread_user None)) _ s6 tt
             (set_thread_user None s6) eq_refl).
  assert (Hk : keeps k s2 (set_thread_user None s6)).
  { eapply keeps_trans; [exact Hk23|]. eapply keeps_trans; [by apply keeps_refl|].
    eapply keeps_trans; [exact Hk45|]. eapply keeps_trans; [exact Hk56|].
    by apply keeps_refl. }
  destruct (Hk new) as (r' & Hr' & Hrid & Hs & Hau & Han & Hd).
  { subst s2. simpl. by rewrite lookup_insert_eq. }
  exists {| pk := Some k; row := r' |}, (set_thread_user None s6), k.
  split.
  { unfold reload, get_page. rewrite Hpk. simpl in *. by rewrite Hr'. }
  simpl. split_and!; try done.
Qed.


Lemma count_drafts_zero rid site_id s :
  count_drafts rid site_id s = 0 ↔
  ∀ k r, pages s !! k = Some r → publisher_is_draft r = true →
         reverse_id r = Some rid → site r ≠ site_id.
Proof.
  unfold count_drafts. rewrite length_zero_iff_nil. split.
  - intros Hnil k r Hk Hd Hr Hs.
    assert (Hin : (k, r) ∈ filter (λ kr : nat * PageRow,
                    publisher_is_draft kr.2 = true ∧
                    reverse_id kr.2 = Some rid ∧ site kr.2 = site_id)
                  (map_to_list (pages s))).
    { apply list_elem_of_filter. split; [done|]. by apply elem_of_map_to_list. }
    rewrite Hnil in Hin. by apply elem_of_nil in Hin.
  - intros Hall. apply elem_of_nil_inv. intros [k r] Hin.
    apply list_elem_of_filter in Hin as ((Hd & Hr & Hs) & Hin).
    apply elem_of_map_to_list in Hin. by apply (Hall k r).
Qed.

Lemma check_reverse_id_ok a c s :
  c_site c = default (current_site env) (a_site a) →
  reverse_id_free env a s →
  check_reverse_id a c s = (Ok tt, s).
Proof.
  intros Hsite Hfree. unfold check_reverse_id.
  destruct (a_reverse_id a) as [rid|] eqn:Hrid; [|done].
  destruct (truthy_str rid) eqn:Htruthy; [|done].
  assert (Hz : count_drafts rid (c_site c) s = 0).
  { apply count_drafts_zero. rewrite Hsite. apply (Hfree rid Hrid).
    by intros ->. }
  unfold mbind, py_bind, query. by rewrite Hz.
Qed.

(** A call whose checks pass and whose [reverse_id] is free creates
    the page, once the collaborators do their part. *)
Lemma create_page_ok a s c s1 :
  validate env a s = (Ok c, s1) →
  reverse_id_free env a s →
  collaborators_ok move publish make_revision_with_plugins →
  ∃ page s' k,
    create_page env move publish make_revision_with_plugins a s
      = (Ok page, s') ∧
    pk page = Some k ∧ pages s !! k = None ∧
    pages s' !! k = Some (row page) ∧
    reverse_id page = a_reverse_id a ∧
    site page = default (current_site env) (a_site a) ∧
    application_urls page = c_application_urls c ∧
    application_namespace page = a_apphook_namespace a ∧
    publisher_is_draft page = true.
Proof.
  intros Hval Hfree Hcollab.
  destruct (validate_site a s c s1 Hval) as [Hsite Hlang].
  destruct (reads_validate a s _ s1 Hval) as [Hpages Htitles].
  unfold create_page. rewrite (bind_run _ _ _ _ _ Hval).
  rewrite (bind_run _ _ _ _ _ (check_reverse_id_ok a c s1 Hsite
             ltac:(unfold reverse_id_free; rewrite Hpages; exact Hfree))).
  destruct (build_ok a c s1 Hcollab Hlang)
    as (page & s' & k & Hb & Hpk & Hk & Hk' & Hr & Hs & Hau & Han & Hd).
  exists page, s', k. rewrite <- Hpages, <- Hsite. by split_and!.
Qed.

(** C4. Once the checks that precede it have passed, a [reverse_id]
    that is given (not the empty string) and that a draft page of the
    same site already carries makes [create_page] raise [FieldError],
    with the page and title tables as they were; when the draft pages
    that carry it are all on other sites, and the collaborators do
    their part, the page is created as a draft with that [reverse_id]
    on the requested site. *)
Theorem create_page_reverse_id a s c s1 rid :
  validate env a s = (Ok c, s1) →
  a_reverse_id a = Some rid →
  rid ≠ "" →
  let site_id := default (current_site env) (a_site a) in
  ((∃ k r, pages s !! k = Some r ∧ publisher_is_draft r = true ∧
           reverse_id r = Some rid ∧ site r = site_id) →
   create_page env move publish make_revision_with_plugins a s
     = (Raise (FieldError ("A page with the reverse_id=" +:+ dquote +:+ rid
                           +:+ dquote +:+ " already exist.")), s1) ∧
   pages s1 = pages s ∧ titles s1 = titles s)
  ∧
  ((∀ k r, pages s !! k = Some r → publisher_is_draft r = true →
           reverse_id r = Some rid → site r ≠ site_id) →
   collaborators_ok move publish make_revision_with_plugins →
   ∃ page s' k,
     create_page env move publish make_revision_with_plugins a s
       = (Ok page, s') ∧
     pk page = Some k ∧ pages s !! k = None ∧
     pages s' !! k = Some (row page) ∧
     reverse_id page = Some rid ∧ site page = site_id ∧
     publisher_is_draft page = true).
Proof.
  intros Hval Hrid Hne site_id. split.
  - intros (k & r & Hk & Hd & Hr & Hs).
    destruct (validate_site a s c s1 Hval) as [Hsite Hlang].
    destruct (reads_validate a s _ s1 Hval) as [Hpages Htitles].
    assert (Htruthy : truthy_str rid = true) by (by destruct rid).
    split; [|done].
    unfold create_page. rewrite (bind_run _ _ _ _ _ Hval).
    unfold check_reverse_id. rewrite Hrid, Htruthy.
    unfold mbind, py_bind, query.
    rewrite bool_decide_eq_true_2; [done|].
    intros Hz. pose proof (proj1 (count_drafts_zero _ _ _) Hz) as Hall.
    apply (Hall k r); [by rewrite Hpages | done | done | by rewrite Hsite].
  - intros Hfree Hcollab.
    destruct (create_page_ok a s c s1 Hval) as
      (page & s' & k & Hrun & Hpk & Hk & Hk' & Hr & Hs & _ & _ & Hd);
      [|done|].
    { intros rid' Hrid' _. rewrite Hrid in Hrid'. injection Hrid' as <-.
      exact Hfree. }
    exists page, s', k. rewrite Hrid in Hr. by split_and!.
Qed.

(** With an apphook given as a string or as an instance, registered
    with an [app_name], and without namespace, the call raises
    [ValidationError] before anything is written. *)
Lemma create_page_apphook_needs_namespace a s c0 s0 name app :
  validate env (with_apphook Apphooks.AppNone a) s = (Ok c0, s0) →
  (a_apphook a = Apphooks.AppString name ∧ name ≠ "") ∨
  (∃ cl, a_apphook a = Apphooks.AppInstance cl ∧ Apphooks.cls_name cl = name ∧
         ∃ key, apps env !! key = Some cl) →
  apps env !! name = Some app →
  truthy_ostr (Apphooks.app_name app) = true →
  truthy_ostr (a_apphook_namespace a) = false →
  create_page env move publish make_revision_with_plugins a s
    = (Raise (ValidationError "apphook with app_name must define a namespace"),
       s).
Proof.
  intros Hval Hhook Happ Hname Hns. unfold create_page.
  assert (Hv : validate env a s =
    (Raise (ValidationError "apphook with app_name must define a namespace"),
     s)).
  { rewrite (validate_apphook a s c0 s0 Hval).
    - destruct Hhook as [[-> _] | (cl & -> & <- & Hreg)].
      + rewrite (_verify_apphook_string _ _ _ _ Happ).
        unfold Apphooks.namespace_verdict. by rewrite Hname, Hns.
      + rewrite (_verify_apphook_instance _ _ _ _ Hreg Happ).
        unfold Apphooks.namespace_verdict. by rewrite Hname, Hns.
    - destruct Hhook as [[-> Hne] | (cl & -> & _)]; [by destruct name | done]. }
  unfold mbind, py_bind. by rewrite Hv.
Qed.

(** With a namespace the same call creates the page, bound to the
    normalized name; so does a call that passes the class. *)
Lemma create_page_apphook_with_namespace a s c0 s0 name app :
  validate env (with_apphook Apphooks.AppNone a) s = (Ok c0, s0) →
  (a_apphook a = Apphooks.AppString name ∧ name ≠ "") ∨
  (∃ cl, a_apphook a = Apphooks.AppInstance cl ∧ Apphooks.cls_name cl = name ∧
         ∃ key, apps env !! key = Some cl) ∨
  (∃ cl, a_apphook a = Apphooks.AppSubclass cl ∧ Apphooks.cls_name cl = name) →
  apps env !! name = Some app →
  truthy_ostr (a_apphook_namespace a) = true →
  reverse_id_free env a s →
  collaborators_ok move publish make_revision_with_plugins →
  ∃ page s' k,
    create_page env move publish make_revision_with_plugins a s
      = (Ok page, s') ∧
    pk page = Some k ∧ pages s' !! k = Some (row page) ∧
    application_urls page = Some name ∧
    application_namespace page = a_apphook_namespace a.
Proof.
  intros Hval Hhook Happ Hns Hfree Hcollab.
  assert (Hv : validate env a s
               = (Ok (with_application_urls (Some name) c0), s0)).
  { rewrite (validate_apphook a s c0 s0 Hval).
    - destruct Hhook as [[-> _] | [(cl & -> & <- & Hreg) | (cl & -> & <-)]].
      + rewrite (_verify_apphook_string _ _ _ _ Happ).
        unfold Apphooks.namespace_verdict. by rewrite Hns, andb_false_r.
      + rewrite (_verify_apphook_instance _ _ _ _ Hreg Happ).
        unfold Apphooks.namespace_verdict. by rewrite Hns, andb_false_r.
      + done.
    - destruct Hhook as [[-> Hne] | [(cl & -> & _) | (cl & -> & _)]];
        [by destruct name | done | done]. }
  destruct (create_page_ok a s _ s0 Hv Hfree Hcollab)
    as (page & s' & k & Hrun & Hpk & _ & Hk' & _ & _ & Hau & Han & _).
  exists page, s', k. by split_and!.
Qed.

End page_properties.

Section page_examples.
Import Pages.

Lemma demo_collaborators_ok :
  collaborators_ok demo_move demo_publish demo_revision.
Proof.
  split_and!.
  - intros p target pos k s Hpk. exists p, s. split_and!; try done.
    by apply keeps_refl.
  - intros p lang k Hpk s. exists true, s. split; [done|]. by apply keeps_refl.
  - intros p u m k Hpk s. exists tt, s. split; [done|]. by apply keeps_refl.
Qed.

Lemma create_page_reverse_id_witness :
  let same := demo_args Apphooks.AppNone None (Some "home") None in
  let other := demo_args Apphooks.AppNone None (Some "home") (Some 2) in
  (create_page demo_env demo_move demo_publish demo_revision same demo_store).1
    = Raise (FieldError ("A page with the reverse_id=" +:+ dquote +:+ "home"
                         +:+ dquote +:+ " already exist.")) ∧
  ∃ page s' k,
    create_page demo_env demo_move demo_publish demo_revision other demo_store
      = (Ok page, s') ∧
    pk page = Some k ∧ pages demo_store !! k = None ∧
    pages s' !! k = Some (row page) ∧
    reverse_id page = Some "home" ∧ site page = 2 ∧
    publisher_is_draft page = true.
Proof.
  intros same other. split.
  - edestruct (create_page_reverse_id demo_env demo_move demo_publish
                 demo_revision same demo_store) as [Hsame _];
      [vm_compute; reflexivity | reflexivity | done |].
    destruct Hsame as [-> _]; [|reflexivity].
    exists 1, home_row. by split_and!.
  - edestruct (create_page_reverse_id demo_env demo_move demo_publish
                 demo_revision other demo_store) as [_ Hother];
      [vm_compute; reflexivity | reflexivity | done |].
    apply Hother; [|apply demo_collaborators_ok].
    intros k r Hk _ _.
    destruct (decide (k = 1)) as [->|Hne].
    + injection Hk as <-. simpl. discriminate.
    + unfold demo_store in Hk. simpl in Hk.
      by rewrite lookup_singleton_ne in Hk.
Defined.

(** C3. On the site with the application "SampleApp" registered with an
    [app_name], [create_page] with the class as apphook and without
    namespace raises nothing: it creates the page bound to "SampleApp"
    with no namespace.  The same call with the name or with an instance
    raises [ValidationError]. *)
Theorem create_page_apphook_class_skips_namespace_check :
  let call h := create_page demo_env demo_move demo_publish demo_revision
                  (demo_args h None None None) demo_store in
  (∃ page, (call (Apphooks.AppSubclass sample_app)).1 = Ok page ∧
           application_urls page = Some "SampleApp" ∧
           application_namespace page = None) ∧
  (call (Apphooks.AppString "SampleApp")).1
    = Raise (ValidationError "apphook with app_name must define a namespace") ∧
  (call (Apphooks.AppInstance sample_app)).1
    = Raise (ValidationError "apphook with app_name must define a namespace").
Proof.
  intros call. split_and!.
  - eexists. split; [vm_compute; reflexivity|]. done.
  - vm_compute. reflexivity.
  - vm_compute. reflexivity.
Qed.

End page_examples.

(** ** Publication workflow *)


Section publication_properties.
Import Publication.

Variable publish_db : Page → string → option string → DB → result bool * DB.
Variable has_publish_permission : Page → User → DB → bool.

(** C6. For a page that is in the store: when the user lacks the
    publish permission, [publish_page] raises [PermissionDenied] and
    leaves the whole store, and so the page and its titles, as it was,
    without any call of [publish]; when the user holds it, [publish]
    is called exactly once, on that page and language and with the
    user's name as current user, after which the previous current user
    is put back and the page as reloaded from the store is returned. *)
Theorem publish_page_permission page user lang s k r :
  pk page = Some k →
  pages (db s) !! k = Some r →
  let page' := {| pk := Some k; row := r |} in
  (has_publish_permission page' user (db s) = false →
   publish_page publish_db has_publish_permission page user lang s
     = (Raise PermissionDenied, s))
  ∧
  (has_publish_permission page' user (db s) = true →
   ∃ res s' returned,
     publish_page publish_db has_publish_permission page user lang s
       = (res, s') ∧
     calls s' = calls s ++
       [Published (Some k) lang (Some (username user)) returned] ∧
     ∀ b d', publish_db page' lang (Some (username user)) (db s) = (Ok b, d') →
       returned = Some b ∧ db s' = d' ∧ acting_user s' = acting_user s ∧
       res = match pages d' !! k with
             | Some r' => Ok {| pk := Some k; row := r' |}
             | None => Raise DoesNotExist
             end).
Proof.
  intros Hpk Hrow page'.
  assert (Hreload : reload page s = (Ok page', s)).
  { unfold reload, get_page. rewrite Hpk. simpl. by rewrite Hrow. }
  unfold publish_page. rewrite (bind_run _ _ _ _ _ Hreload).
  rewrite (bind_run (query _) _ s _ s eq_refl).
  split; intros Hperm; rewrite Hperm; simpl.
  - done.
  - unfold current_user, publish, mbind, py_bind, query, update, mret, py_ret.
    simpl.
    destruct (publish_db page' lang (Some (username user)) (db s))
      as [[b|e] d'] eqn:Hpub; simpl.
    + unfold reload, get_page. simpl.
      destruct (pages d' !! k) as [r'|] eqn:Hk;
        (eexists _, _, _; split; [reflexivity|]; simpl; split; [reflexivity|];
         intros b' d'' [= <- <-]; rewrite Hk; by split_and!).
    + eexists _, _, _. split; [reflexivity|]. simpl. split; [reflexivity|].
      intros b' d'' [=].
Qed.























End publication_properties.

Section publication_examples.
Import Publication.


Lemma publish_page_permission_witness :
  let page := {| pk := Some 1;
                 row := {| publisher_is_draft := true; site := 1; path := "0001" |} |} in
  publish_page demo_publish_db demo_permission page
    {| username := "guest" |} "de" demo_store
    = (Raise PermissionDenied, demo_store) ∧
  ∃ s', publish_page demo_publish_db demo_permission page
          {| username := "editor" |} "de" demo_store = (Ok page, s') ∧
        calls s' = [Published (Some 1) "de" (Some "editor") (Some true)] ∧
        db s' = demo_db ∧ acting_user s' = None.
Proof.
  intros page. split.
  - apply (publish_page_permission demo_publish_db demo_permission page
             {| username := "guest" |} "de" demo_store 1 (row page));
      reflexivity.
  - destruct (publish_page_permission demo_publish_db demo_permission page
                {| username := "editor" |} "de" demo_store 1 (row page))
      as [_ Hallowed]; [reflexivity..|].
    destruct Hallowed as (res & s' & returned & Hrun & Hcalls & Hres);
      [reflexivity|].
    destruct (Hres true demo_db eq_refl) as (-> & Hdb & Hacting & ->).
    exists s'. by split_and!.
Defined.






End publication_examples.

(** ** Language copy *)

Section copy_properties.
Import LanguageCopy.

Variable get_placeholders : nat → list nat.
Variable copy_db :
  list CMSPlugin → nat → string → gmap nat Row →
  result (list CMSPlugin) * gmap nat Row.

Lemma elem_of_in_language lang ph t (x : CMSPlugin) :
  x ∈ in_language lang ph t ↔
  ∃ k, pk x = Some k ∧ t !! k = Some (row x) ∧
       placeholder x = ph ∧ language x = lang.
Proof.
  unfold in_language. rewrite list_elem_of_fmap. split.
  - intros ([k r] & -> & Hin). apply list_elem_of_filter in Hin as [[??] Hin].
    apply elem_of_map_to_list in Hin. exists k. by split_and!.
  - intros (k & Hpk & Hk & Hph & Hl). exists (k, row x). split.
    + destruct x as [? ?]. simpl in *. by subst.
    + apply list_elem_of_filter. split; [done|]. by apply elem_of_map_to_list.
Qed.


Lemma exists_in_language_true lang ph t :
  exists_in_language lang ph t = true ↔
  ∃ k r, t !! k = Some r ∧ placeholder r = ph ∧ language r = lang.
Proof.
  unfold exists_in_language. split.
  - destruct (in_language lang ph t) as [|x l] eqn:Hl; [done|]. intros _.
    assert (Hx : x ∈ in_language lang ph t) by (rewrite Hl; left).
    apply elem_of_in_language in Hx as (k & _ & ? & ? & ?). eauto.
  - intros (k & r & Hk & Hph & Hlang).
    assert (Hx : {| pk := Some k; row := r |} ∈ in_language lang ph t).
    { apply elem_of_in_language. exists k. by split_and!. }
    destruct (in_language lang ph t); [by apply elem_of_nil in Hx | done].
Qed.









End copy_properties.

Section copy_examples.
Import LanguageCopy.

Lemma demo_copy_db_spec old ph lang : ∀ t copied t',
  demo_copy_db old ph lang t = (copied, t') →
  Forall2 (λ p c, copy_of ph lang p c ∧ path c = path p) old copied ∧
  (∀ k r, t !! k = Some r → t' !! k = Some r) ∧
  (∀ k r, t !! k = None → t' !! k = Some r →
          placeholder r = ph ∧ language r = lang).
Proof.
  induction old as [|p old IH]; intros t copied t' Hrun; simpl in Hrun.
  - injection Hrun as <- <-. split_and!; [constructor|done|].
    intros k r H1 H2. congruence.
  - set (k0 := fresh (dom t)) in *.
    set (r0 := {| placeholder := ph; language := lang; path := path p;
                  plugin_type := plugin_type p |}) in *.
    destruct (demo_copy_db old ph lang (<[k0 := r0]> t)) as [cs t1] eqn:Hrec.
    injection Hrun as <- <-.
    destruct (IH _ _ _ Hrec) as (Hall & Hkeep & Hnew).
    assert (Hfresh : t !! k0 = None) by apply not_elem_of_dom, is_fresh.
    split_and!.
    + constructor; [|done]. by split_and!.
    + intros k r Hk. apply Hkeep. rewrite lookup_insert_ne; [done|].
      intros <-. congruence.
    + intros k r Hk Hk'. destruct (decide (k = k0)) as [->|Hne].
      * assert (t1 !! k0 = Some r0) as Hr0
          by (apply Hkeep; by rewrite lookup_insert_eq).
        rewrite Hr0 in Hk'. by injection Hk' as <-.
      * apply (Hnew k r); [by rewrite lookup_insert_ne|done].
Qed.

Lemma Sorted_same_paths (old copied : list CMSPlugin) :
  Forall2 (λ p c : CMSPlugin, path c = path p) old copied →
  Sorted path_le old → Sorted path_le copied.
Proof.
  induction 1 as [|p c old copied Hpc Hall IH]; [done|].
  intros [Hsorted Hhd]%Sorted_inv. constructor; [by apply IH|].
  destruct Hall as [|p' c' old copied Hpc' _]; constructor.
  apply HdRel_inv in Hhd. unfold path_le in *. by rewrite Hpc, Hpc'.
Qed.

Lemma demo_copy_faithful : copies_faithfully demo_copy.
Proof.
  intros old ph lang t. unfold demo_copy.
  destruct (demo_copy_db old ph lang t) as [copied t'] eqn:Hrun.
  destruct (demo_copy_db_spec _ _ _ _ _ _ Hrun) as (Hall & Hkeep & Hnew).
  exists copied, t'. split_and!; try done.
  - eapply Forall2_impl; [exact Hall|]. by intros p c [? _].
  - apply Sorted_same_paths. eapply Forall2_impl; [exact Hall|].
    by intros p c [_ ?].
Qed.




End copy_examples.

(** ** Page users *)

Section page_user_properties.
Import PageUsers.

Variable local_fields : list string.

Lemma copy_attrs_lookup fields src : ∀ dst f,
  f ∈ fields ∨ dst !! f = src !! f →
  (∀ g, g ∈ fields → is_Some (src !! g)) →
  copy_attrs fields src dst !! f = src !! f.
Proof.
  induction fields as [|g fields IH]; intros dst f Hf Hsrc; simpl.
  - destruct Hf as [Hf|Hf]; [by apply elem_of_nil in Hf | done].
  - destruct (Hsrc g) as [v Hv]; [left|]. rewrite Hv.
    apply IH; [|intros g' ?; apply Hsrc; by right].
    destruct (decide (f = g)) as [->|Hne].
    + right. by rewrite lookup_insert_eq.
    + rewrite lookup_insert_ne by done.
      destruct Hf as [[->|Hf]%elem_of_cons|Hf]; [done|by left|by right].
Qed.

Lemma copy_loop fields user page_user uo : ∀ po s,
  user ≠ page_user →
  heap s !! user = Some uo →
  heap s !! page_user = Some po →
  (∀ g, g ∈ fields → is_Some (attrs uo !! g)) →
  for_each fields (λ field, v ← getattr user field; setattr page_user field v) s
  = (Ok tt,
     set_heap <[page_user := {| class := class po;
                                attrs := copy_attrs fields (attrs uo)
                                           (attrs po) |}]> s).
Proof.
  induction fields as [|g fields IH]; intros po s Hne Hu Hp Hsrc.
  - simpl. unfold mret, py_ret. f_equal. destruct s as [h e], po as [c a].
    unfold set_heap. simpl in *. f_equal. by rewrite insert_id.
  - destruct (Hsrc g) as [v Hv]; [left|].
    simpl. rewrite Hv.
    assert (Hget : getattr user g s = (Ok v, s)).
    { unfold getattr. rewrite Hu. simpl. by rewrite Hv. }
    rewrite (bind_run _ _ _ _ _ (bind_run _ _ _ _ _ Hget)).
    unfold setattr at 1, update at 1.
    set (po' := {| class := class po; attrs := <[g := v]> (attrs po) |}).
    rewrite (IH po'); simpl.
    + f_equal. destruct s as [h e]. unfold set_heap. simpl in *. f_equal.
      by rewrite insert_alter_eq.
    + done.
    + by rewrite lookup_alter_ne.
    + by rewrite lookup_alter_eq, Hp.
    + intros g' ?. apply Hsrc. by right.
Qed.


(** C10. When [created_by] is an instance of the user model and the
    user object has the fields of the user model, [create_page_user]
    returns the address it was given as [user], not that of the new
    [PageUser]; the user object itself has [is_staff] and [is_active]
    set to true and is saved with them; the new [PageUser] carries the
    value of every field of the user model that the user object has;
    no other object changes. *)
Theorem create_page_user_mutates_user created_by user data grant_all s
    creator u :
  heap s !! created_by = Some creator →
  is_user_model creator = true →
  heap s !! user = Some u →
  (∀ f, f ∈ local_fields → is_Some (attrs (staffed u) !! f)) →
  ∃ page_user pu s',
    create_page_user local_fields created_by user data grant_all s
      = (Ok user, s') ∧
    heap s !! page_user = None ∧
    heap s' !! user = Some (staffed u) ∧
    attrs (staffed u) !! "is_staff" = Some (VBool true) ∧
    attrs (staffed u) !! "is_active" = Some (VBool true) ∧
    heap s' !! page_user = Some pu ∧
    class pu = PageUser ∧
    (∀ f, f ∈ local_fields → attrs pu !! f = attrs (staffed u) !! f) ∧
    (∀ a, a ≠ user → a ≠ page_user → heap s' !! a = heap s !! a) ∧
    effects s' = effects s ++
      [Saved user (attrs (staffed u)); Saved page_user (attrs pu);
       SavedPermissions (if grant_all then all_granted else data) page_user].
Proof.
  intros Hcreator Hmodel Huser Hfields.
  assert (Hbody : ∀ d, ∃ page_user pu s',
    create local_fields created_by user d s = (Ok user, s') ∧
    heap s !! page_user = None ∧
    heap s' !! user = Some (staffed u) ∧
    heap s' !! page_user = Some pu ∧
    class pu = PageUser ∧
    (∀ f, f ∈ local_fields → attrs pu !! f = attrs (staffed u) !! f) ∧
    (∀ a, a ≠ user → a ≠ page_user → heap s' !! a = heap s !! a) ∧
    effects s' = effects s ++
      [Saved user (attrs (staffed u)); Saved page_user (attrs pu);
       SavedPermissions d page_user]).
  { intros d. unfold create.
    rewrite (bind_run (query _) _ s _ s eq_refl).
    rewrite Hcreator. simpl. rewrite Hmodel.
    rewrite (bind_run (lift (py_assert true)) _ s tt s eq_refl).
    set (h1 := alter (λ o, {| class := class o;
                              attrs := <["is_staff" := VBool true]> (attrs o) |})
                 user (heap s)).
    set (h2 := alter (λ o, {| class := class o;
                              attrs := <["is_active" := VBool true]> (attrs o) |})
                 user h1).
    set (s2 := {| heap := h2; effects := effects s |}).
    set (s1 := {| heap := h1; effects := effects s |}).
    assert (Hu2 : heap s2 !! user = Some (staffed u)).
    { simpl. subst h2 h1. by rewrite !lookup_alter_eq, Huser. }
    assert (Hdom : dom h2 = dom (heap s)).
    { subst h2 h1. by rewrite !dom_alter_L. }
    set (pa := fresh (dom h2)).
    assert (Hfresh : heap s !! pa = None).
    { apply not_elem_of_dom. rewrite <- Hdom. apply is_fresh. }
    assert (Hne : user ≠ pa) by (intros <-; congruence).
    set (po := {| class := PageUser;
                  attrs := {[ "created_by" := VRef created_by ]} |}).
    set (s3 := set_heap <[pa := po]> s2).
    set (pu := {| class := PageUser;
                  attrs := copy_attrs local_fields (attrs (staffed u))
                             (attrs po) |}).
    set (s4 := set_heap <[pa := pu]> s3).
    assert (Hloop : for_each local_fields
              (λ field, v ← getattr user field; setattr pa field v) s3
              = (Ok tt, s4)).
    { apply (copy_loop local_fields user pa (staffed u) po s3); try done.
      - simpl. by rewrite lookup_insert_ne.
      - simpl. by rewrite lookup_insert_eq. }
    assert (Hu4 : heap s4 !! user = Some (staffed u)).
    { simpl. by rewrite !lookup_insert_ne. }
    assert (Hp4 : heap s4 !! pa = Some pu).
    { simpl. by rewrite lookup_insert_eq. }
    exists pa, pu.
    eexists. split.
    { rewrite (bind_run (setattr user "is_staff" _) _ s tt s1 eq_refl).
      rewrite (bind_run (setattr user "is_active" _) _ s1 tt s2 eq_refl).
      rewrite (bind_run (new _ _) _ s2 pa s3 eq_refl).
      rewrite (bind_run _ _ _ _ _ Hloop).
      assert (Hsave1 : save user s4 =
                perform (Saved user (attrs (staffed u))) s4).
      { unfold save. by rewrite Hu4. }
      rewrite (bind_run (save user) _ s4 tt _ Hsave1).
      assert (Hsave2 : ∀ e, save pa {| heap := heap s4; effects := e |} =
                perform (Saved pa (attrs pu))
                  {| heap := heap s4; effects := e |}).
      { intros e. unfold save.
        change (heap {| heap := heap s4; effects := e |}) with (heap s4).
        by rewrite Hp4. }
      rewrite (bind_run (save pa) _ _ tt _ (Hsave2 _)).
      reflexivity. }
    simpl. split_and!; try done.
    - intros f Hf. apply copy_attrs_lookup; [by left | done].
    - intros a Ha Hpa. rewrite !lookup_insert_ne by done.
      subst h2 h1. by rewrite !lookup_alter_ne.
    - by rewrite <- !app_assoc. }
  unfold create_page_user.
  destruct (Hbody (if grant_all then all_granted else data))
    as (pa & pu & s' & Hrun & ? & ? & ? & ? & ? & ? & ?).
  exists pa, pu, s'. split_and!; try done.
  - by destruct grant_all.
  - unfold staffed. simpl. by rewrite lookup_insert_ne, lookup_insert_eq.
  - unfold staffed. simpl. by rewrite lookup_insert_eq.
Qed.

End page_user_properties.

Section page_user_examples.
Import PageUsers.

Lemma create_page_user_mutates_user_witness :
  ∃ page_user pu s',
    create_page_user demo_fields 1 2 all_granted true demo_store
      = (Ok 2, s') ∧
    heap demo_store !! page_user = None ∧
    heap s' !! 2 = Some (staffed demo_user) ∧
    attrs (staffed demo_user) !! "is_staff" = Some (VBool true) ∧
    attrs (staffed demo_user) !! "is_active" = Some (VBool true) ∧
    heap s' !! page_user = Some pu ∧
    class pu = PageUser ∧
    (∀ f, f ∈ demo_fields → attrs pu !! f = attrs (staffed demo_user) !! f) ∧
    (∀ a, a ≠ 2 → a ≠ page_user → heap s' !! a = heap demo_store !! a) ∧
    effects s' = effects demo_store ++
      [Saved 2 (attrs (staffed demo_user)); Saved page_user (attrs pu);
       SavedPermissions all_granted page_user].
Proof.
  apply (create_page_user_mutates_user demo_fields 1 2 all_granted true
           demo_store demo_admin demo_user); try reflexivity.
  intros f Hf. unfold demo_fields in Hf.
  repeat (apply elem_of_cons in Hf as [->|Hf]; [eexists; reflexivity|]).
  by apply elem_of_nil in Hf.
Defined.

End page_user_examples.

(** ** Further properties of the slug generator *)

Section slug_extras.
Import Slug.

Variable slugify : string → string.

End slug_extras.


(** ** Further properties of the apphook and plugin type checks *)

Section apphook_extras.
Import Apphooks.

Variable apps : gmap string AppClass.

(** X2. [_verify_apphook] accepts an apphook given by name exactly
    when the name is registered and, if the registered application
    declares an [app_name], a namespace is given (not [None], not
    the empty string); what it returns is the name itself. *)
Theorem _verify_apphook_string_accepts name namespace r :
  _verify_apphook apps (AppString name) namespace = Ok r ↔
  r = name ∧ ∃ app, apps !! name = Some app ∧
    (truthy_ostr (app_name app) = true → truthy_ostr namespace = true).
Proof.
  unfold _verify_apphook, check_namespace. split.
  - destruct (apps !! name) as [app|] eqn:Happ.
    + rewrite bool_decide_eq_true_2 by done. simpl.
      destruct (truthy_ostr (app_name app)) eqn:Ha,
               (truthy_ostr namespace) eqn:Hn;
        simpl; intros [= <-];
        (split; [done|]; exists app; split; [done | congruence]).
    + rewrite bool_decide_eq_false_2 by (by intros [? ?]). discriminate.
  - intros (-> & app & Happ & Hns). rewrite Happ.
    rewrite bool_decide_eq_true_2 by done. simpl.
    destruct (truthy_ostr (app_name app)); [|done].
    by rewrite Hns.
Qed.

(** X3. An apphook that is not registered, given by name or as an
    instance of a class that the pool does not hold, fails with
    [AssertionError], whatever the namespace. *)
Theorem _verify_apphook_unregistered name c namespace :
  apps !! name = None →
  (∀ key, apps !! key ≠ Some c) →
  _verify_apphook apps (AppString name) namespace = Raise AssertionError ∧
  _verify_apphook apps (AppInstance c) namespace = Raise AssertionError.
Proof.
  intros Hname Hc. unfold _verify_apphook. split.
  - rewrite bool_decide_eq_false_2; [done|]. rewrite Hname. by intros [? ?].
  - rewrite bool_decide_eq_false_2; [done|].
    intros ([key c'] & -> & Hin)%list_elem_of_fmap.
    apply elem_of_map_to_list in Hin. by apply (Hc key).
Qed.
End apphook_extras.

Section apphook_extras_examples.
Import Apphooks.

Lemma _verify_apphook_unregistered_witness :
  let apps := {[ "SampleApp" := Pages.sample_app ]} : gmap string AppClass in
  let other := {| cls_name := "OtherApp"; cls_module := "other.cms_app";
                  app_name := None |} in
  apps !! "OtherApp" = None ∧
  _verify_apphook apps (AppString "OtherApp") None = Raise AssertionError ∧
  _verify_apphook apps (AppInstance other) None = Raise AssertionError.
Proof.
  intros apps other. split; [reflexivity|].
  apply (_verify_apphook_unregistered apps "OtherApp" other None);
    [reflexivity|].
  intros key Hkey. apply lookup_singleton_Some in Hkey as [_ Hkey].
  discriminate Hkey.
Defined.

End apphook_extras_examples.

Section plugin_extras.
Import Plugins.

Variable plugin_pool : gmap string PluginClass.
Variable node_order_by : bool.
Variable move : CMSPlugin → CMSPlugin → string → py Store CMSPlugin.

Lemma add_plugin_last_child_run ph ty lang data s m tyname :
  _verify_plugin_type plugin_pool ty = Ok (m, tyname) →
  add_plugin plugin_pool node_order_by move (IsPlaceholder ph) ty lang
    "last-child" None data s =
  let k := fresh (dom (plugins s)) in
  let new := {| plugin_type := tyname; placeholder := ph;
                position := length (root_positions lang ph (plugins s));
                language := lang; parent_id := None |} in
  (Ok {| base := {| pk := Some k; row := new |}; plugin_model := m;
         fields := data |},
   {| plugins := <[k := new]> (plugins s);
      models := <[k := (m, data)]> (models s) |}).
Proof.
  intros Hty. unfold add_plugin, place_at_root. rewrite Hty.
  unfold mbind, py_bind, lift, query, mret, py_ret. simpl.
  rewrite insert_insert_eq. unfold count, select, root_positions, root_level.
  by rewrite !length_fmap.
Qed.

Lemma root_positions_insert lang ph (t : gmap nat Row) k new :
  t !! k = None →
  root_level lang ph new = true →
  root_positions lang ph (<[k := new]> t)
    ≡ₚ position new :: root_positions lang ph t.
Proof.
  intros Hk Hroot. unfold root_positions.
  rewrite map_to_list_insert by done.
  by rewrite filter_cons_True by done.
Qed.

Lemma root_positions_bump lang ph (t : gmap nat Row) :
  root_positions lang ph (bump_if (root_level lang ph) <$> t)
    ≡ₚ S <$> root_positions lang ph t.
Proof.
  unfold root_positions. rewrite map_to_list_fmap.
  induction (map_to_list t) as [|[k r] l IH]; [done|].
  rewrite fmap_cons. simpl. unfold bump_if at 1.
  destruct (root_level lang ph r) eqn:Hr.
  - rewrite filter_cons_True.
    + rewrite (filter_cons_True _ (k, r)) by done.
      rewrite !fmap_cons. simpl. rewrite Nat.add_1_r. by f_equiv.
    + simpl. unfold root_level in *. done.
  - rewrite filter_cons_False by (simpl; congruence).
    rewrite (filter_cons_False _ (k, r)) by (simpl; congruence). done.
Qed.

(** X5. Without target, "first-child" and "last-child" keep the
    positions contiguous: when the root-level plugins of the
    placeholder and language hold the positions 0..N-1, the call
    returns a plugin at position 0 (first) or N (last), and afterwards
    the root-level plugins hold the positions 0..N. *)
Theorem add_plugin_keeps_positions_contiguous ph ty lang pos data s m tyname N :
  _verify_plugin_type plugin_pool ty = Ok (m, tyname) →
  pos = "first-child" ∨ pos = "last-child" →
  root_positions lang ph (plugins s) ≡ₚ seq 0 N →
  ∃ plugin s',
    add_plugin plugin_pool node_order_by move (IsPlaceholder ph) ty lang
      pos None data s = (Ok plugin, s') ∧
    position (base plugin) = (if bool_decide (pos = "last-child") then N else 0) ∧
    root_positions lang ph (plugins s') ≡ₚ seq 0 (S N).
Proof.
  intros Hty Hpos Hcont.
  assert (Hfresh : plugins s !! fresh (dom (plugins s)) = None)
    by apply not_elem_of_dom, is_fresh.
  assert (Hlen : length (root_positions lang ph (plugins s)) = N).
  { by rewrite Hcont, length_seq. }
  destruct Hpos as [-> | ->].
  - eexists _, _. split; [by apply add_plugin_no_target|].
    rewrite bool_decide_eq_false_2 by done. split; [done|]. cbn [plugins].
    rewrite root_positions_insert.
    + rewrite root_positions_bump, Hcont. cbn [position].
      by rewrite fmap_S_seq.
    + by rewrite lookup_fmap, Hfresh.
    + unfold root_level. simpl. by rewrite !bool_decide_eq_true_2.
  - eexists _, _. split; [by apply add_plugin_last_child_run|].
    rewrite bool_decide_eq_true_2 by done. split; [done|]. cbn [plugins].
    rewrite root_positions_insert.
    + cbn [position]. rewrite Hlen, Hcont, seq_S.
      by rewrite Permutation_cons_append.
    + done.
    + unfold root_level. simpl. by rewrite !bool_decide_eq_true_2.
Qed.

(** X6. Without target, "last-child" appends: the new plugin gets a
    fresh primary key and the number of root-level plugins of the
    placeholder and language as position, every existing row is left
    as it was, and no other row is created. *)
Theorem add_plugin_last_child_appends ph ty lang data s m tyname :
  _verify_plugin_type plugin_pool ty = Ok (m, tyname) →
  ∃ plugin s' k,
    add_plugin plugin_pool node_order_by move (IsPlaceholder ph) ty lang
      "last-child" None data s = (Ok plugin, s') ∧
    pk (base plugin) = Some k ∧ plugins s !! k = None ∧
    plugins s' !! k = Some (row (base plugin)) ∧
    position (base plugin) = length (root_keys lang ph s) ∧
    (∀ k' r, plugins s !! k' = Some r → plugins s' !! k' = Some r) ∧
    (∀ k', k' ≠ k → plugins s !! k' = None → plugins s' !! k' = None).
Proof.
  intros Hty.
  assert (Hfresh : plugins s !! fresh (dom (plugins s)) = None)
    by apply not_elem_of_dom, is_fresh.
  eexists _, _, _. split; [by apply add_plugin_last_child_run|]. simpl.
  split_and!; try done.
  - by rewrite lookup_insert_eq.
  - unfold root_positions, root_keys. by rewrite !length_fmap.
  - intros k' r Hk'. rewrite lookup_insert_ne; [done|]. congruence.
  - intros k' Hne Hk'. by rewrite lookup_insert_ne.
Qed.

(** X8. With a target and "left" or "right", whatever [move] of the
    tree library does: before [move] is called, the new plugin has been
    saved under a fresh key with the target's position ("left") or the
    next one ("right") and the target's parent, and exactly the rows of
    the language and placeholder of the call that have the target's
    parent and a position at or after the new one have been shifted by
    one; [move] is then called on the new instance with the target and
    the position keyword ("sorted-sibling" when [node_order_by] is
    set), and what it returns is saved and returned. *)
Theorem add_plugin_beside_target ph ty lang pos (target : CMSPlugin) data s
    m tyname :
  _verify_plugin_type plugin_pool ty = Ok (m, tyname) →
  pos = "left" ∨ pos = "right" →
  let new_pos :=
    if bool_decide (pos = "right") then position target + 1
    else position target in
  let new_row :=
    {| plugin_type := tyname; placeholder := ph; position := new_pos;
       language := lang; parent_id := parent_id target |} in
  ∃ k s1,
    plugins s !! k = None ∧
    plugins s1 !! k = Some new_row ∧
    (∀ k' r, plugins s !! k' = Some r →
       plugins s1 !! k' =
         Some (if beside lang ph (parent_id target) new_pos r
               then bump_row r else r)) ∧
    (∀ k', k' ≠ k → plugins s !! k' = None → plugins s1 !! k' = None) ∧
    models s1 = models s ∧
    add_plugin plugin_pool node_order_by move (IsPlaceholder ph) ty lang pos
      (Some target) data s
    = (plugin_base ← move {| pk := Some k; row := new_row |} target
                       (if node_order_by then "sorted-sibling" else pos);
       let plugin := {| base := plugin_base; plugin_model := m;
                        fields := data |} in
       save_plugin plugin ;; mret plugin) s1.
Proof.
  intros Hty Hpos new_pos new_row.
  assert (Hfresh : plugins s !! fresh (dom (plugins s)) = None)
    by apply not_elem_of_dom, is_fresh.
  set (kw := if node_order_by then "sorted-sibling" else pos).
  assert (Hkw : bool_decide (kw = "last-child")
                || bool_decide (kw = "first-child") = false).
  { subst kw. destruct node_order_by, Hpos as [-> | ->]; done. }
  assert (Hplace : place_at_target node_order_by target lang ph pos s =
    (Ok (new_pos, kw, parent_id target),
     set_plugins (fmap (bump_if (beside lang ph (parent_id target) new_pos)))
       s)).
  { unfold place_at_target. subst new_pos.
    destruct Hpos as [-> | ->]; simpl bool_decide; cbn iota;
      fold kw; unfold mbind at 1, py_bind at 1; cbn [mret py_ret];
      rewrite (bind_run (query _) _ s _ s eq_refl);
      rewrite Hkw; unfold beside;
      (erewrite (bind_run (shift _) _ s tt); [reflexivity|]);
      apply shift_select. }
  exists (fresh (dom (plugins s))),
    {| plugins := <[fresh (dom (plugins s)) := new_row]>
                    (bump_if (beside lang ph (parent_id target) new_pos)
                       <$> plugins s);
       models := models s |}.
  split_and!.
  - done.
  - cbn. by rewrite lookup_insert_eq.
  - intros k' r Hk'. cbn. rewrite lookup_insert_ne by congruence.
    by rewrite lookup_fmap, Hk'.
  - intros k' Hne Hk'. cbn. rewrite lookup_insert_ne by done.
    by rewrite lookup_fmap, Hk'.
  - done.
  - unfold add_plugin. rewrite Hty.
    rewrite (bind_run (lift (Ok ph)) _ s ph s eq_refl).
    rewrite (bind_run (lift (Ok (m, tyname))) _ s (m, tyname) s eq_refl).
    rewrite (bind_run _ _ _ _ _ Hplace).
    unfold add_root, save. unfold mbind at 1, py_bind at 1. cbn [pk].
    unfold set_plugins. cbn [plugins models row].
    by rewrite dom_fmap_L.
Qed.

(** X4. [_verify_plugin_type] accepts a plugin class exactly when the
    pool holds it, and a name exactly when the pool has a plugin of
    that name; it returns the model of that plugin, with the
    [__name__] of the class or the name as given. *)
Theorem _verify_plugin_type_accepts ty m name :
  _verify_plugin_type plugin_pool ty = Ok (m, name) ↔
  (∃ c, ty = TypeClass c ∧ (∃ key, plugin_pool !! key = Some c) ∧
        m = model c ∧ name = cls_name c) ∨
  (∃ c, ty = TypeName name ∧ plugin_pool !! name = Some c ∧ m = model c).
Proof.
  unfold _verify_plugin_type. split.
  - destruct ty as [c|n|[]]; [| |done..].
    + destruct (bool_decide _) eqn:Hreg; [|done].
      apply bool_decide_eq_true in Hreg.
      apply list_elem_of_fmap in Hreg as ([key c'] & -> & Hin).
      apply elem_of_map_to_list in Hin.
      intros [= <- <-]. left. exists c'. eauto.
    + destruct (plugin_pool !! n) as [c|] eqn:Hn; [|done].
      intros [= <- <-]. right. by exists c.
  - intros [(c & -> & (key & Hkey) & -> & ->)|(c & -> & Hc & ->)].
    + rewrite bool_decide_eq_true_2; [done|].
      apply list_elem_of_fmap. exists (key, c). split; [done|].
      by apply elem_of_map_to_list.
    + by rewrite Hc.
Qed.

End plugin_extras.

Section plugin_extras_examples.
Import Plugins.

Lemma add_plugin_keeps_positions_contiguous_witness :
  _verify_plugin_type demo_pool (TypeName "TextPlugin")
    = Ok ("Text", "TextPlugin") ∧
  root_positions "en" 7 (plugins demo_store) ≡ₚ seq 0 2 ∧
  ∃ plugin s',
    add_plugin demo_pool false demo_move (IsPlaceholder 7)
      (TypeName "TextPlugin") "en" "last-child" None [] demo_store
      = (Ok plugin, s') ∧
    position (base plugin) = 2 ∧
    root_positions "en" 7 (plugins s') ≡ₚ seq 0 3.
Proof.
  assert (Hcont : root_positions "en" 7 (plugins demo_store) ≡ₚ seq 0 2).
  { apply (bool_decide_unpack _). vm_compute. exact I. }
  split; [reflexivity|]. split; [exact Hcont|].
  apply (add_plugin_keeps_positions_contiguous demo_pool false demo_move 7
           (TypeName "TextPlugin") "en" "last-child" [] demo_store
           "Text" "TextPlugin" 2); [reflexivity|by right|exact Hcont].
Defined.

Lemma add_plugin_last_child_appends_witness :
  _verify_plugin_type demo_pool (TypeName "TextPlugin")
    = Ok ("Text", "TextPlugin") ∧
  ∃ plugin s' k,
    add_plugin demo_pool false demo_move (IsPlaceholder 7)
      (TypeName "TextPlugin") "en" "last-child" None [] demo_store
      = (Ok plugin, s') ∧
    pk (base plugin) = Some k ∧ plugins demo_store !! k = None ∧
    plugins s' !! k = Some (row (base plugin)) ∧
    position (base plugin) = length (root_keys "en" 7 demo_store) ∧
    (∀ k' r, plugins demo_store !! k' = Some r → plugins s' !! k' = Some r) ∧
    (∀ k', k' ≠ k → plugins demo_store !! k' = None →
           plugins s' !! k' = None).
Proof.
  split; [reflexivity|].
  apply (add_plugin_last_child_appends demo_pool false demo_move 7
           (TypeName "TextPlugin") "en" [] demo_store "Text" "TextPlugin").
  reflexivity.
Defined.

Lemma add_plugin_beside_target_witness :
  let target := {| pk := Some 1; row := text_row 7 0 "en" None |} in
  let new_row := text_row 7 1 "en" None in
  _verify_plugin_type demo_pool (TypeName "TextPlugin")
    = Ok ("Text", "TextPlugin") ∧
  ∃ k s1,
    plugins demo_store !! k = None ∧
    plugins s1 !! k = Some new_row ∧
    (∀ k' r, plugins demo_store !! k' = Some r →
       plugins s1 !! k' =
         Some (if beside "en" 7 None 1 r then bump_row r else r)) ∧
    (∀ k', k' ≠ k → plugins demo_store !! k' = None →
           plugins s1 !! k' = None) ∧
    models s1 = models demo_store ∧
    add_plugin demo_pool false demo_move (IsPlaceholder 7)
      (TypeName "TextPlugin") "en" "right" (Some target) [] demo_store
    = (plugin_base ← demo_move {| pk := Some k; row := new_row |} target
                       "right";
       let plugin := {| base := plugin_base; plugin_model := "Text";
                        fields := [] |} in
       save_plugin plugin ;; mret plugin) s1.
Proof.
  intros target new_row. split; [reflexivity|].
  apply (add_plugin_beside_target demo_pool false demo_move 7
           (TypeName "TextPlugin") "en" "right" target [] demo_store
           "Text" "TextPlugin"); [reflexivity|by right].
Defined.

End plugin_extras_examples.

(** ** Further properties of the page and title builders *)

Section page_extras.
Import Pages.

Variable env : Env.
Variable move : Page → Page → string → py Store Page.
Variable publish : Page → string → py Store bool.
Variable make_revision_with_plugins :
  Page → option User → option string → py Store unit.

(** Inversion of a chain of calls that returned. *)
Ltac chain_inv H :=
  repeat match type of H with
  | (_ ≫= _) _ = _ =>
      unfold mbind at 1, py_bind at 1 in H;
      match type of H with
      | match ?m ?s with _ => _ end = _ =>
          let Hstep := fresh "Hstep" in
          destruct (m s) as [[?|?] ?] eqn:Hstep; [|discriminate]
      end
  end.

(** X9. When revision support is missing, a call that asks for a
    revision fails before it writes: [create_page] raises the
    configuration error with the store as it was, whatever its other
    arguments and collaborators; [create_title] does so once its
    language assertion has passed, and raises [AssertionError]
    otherwise, with the store as it was as well. *)
Theorem revision_request_fails_fast e :
  _verify_revision_support env = Raise e →
  (∀ a s, a_with_revision a = true →
     create_page env move publish make_revision_with_plugins a s
       = (Raise e, s)) ∧
  (∀ lang title page menu_title slug redirect meta_description parent
     overwrite_url s,
     create_title env make_revision_with_plugins lang title page menu_title
       slug redirect meta_description parent overwrite_url true s
     = (Raise (if bool_decide (lang ∈ get_language_list env (site page))
               then e else AssertionError), s)).
Proof.
  intros He. split.
  - intros a s Hrev. unfold create_page, validate. rewrite Hrev, He. done.
  - intros. unfold create_title. rewrite He.
    by destruct (bool_decide _).
Qed.

(** X10. Whatever the collaborators do, a [create_page] that returns
    has cleared [_thread_locals.user], and the page it returns is the
    row that the store holds under the page's primary key. *)
Theorem create_page_returns_stored_page a s page s' :
  create_page env move publish make_revision_with_plugins a s = (Ok page, s') →
  thread_user s' = None ∧
  ∃ k, pk page = Some k ∧ pages s' !! k = Some (row page).
Proof.
  unfold create_page, build. intros H. chain_inv H.
  unfold reload, get_page in H.
  destruct (pk _ ≫= _) as [r|] eqn:Hr; [|discriminate].
  injection H as <- <-.
  match goal with
  | Hu : update (set_thread_user None) _ = _ |- _ => injection Hu as _ <-
  end.
  split; [done|]. cbn [pk row].
  match type of Hr with
  | pk ?p ≫= _ = _ => destruct (pk p) as [k|]; [|done]
  end.
  by exists k.
Qed.

Lemma lift_assert_Ok (b : bool) (s : Store) u s' :
  lift (py_assert b) s = (Ok u, s') → b = true.
Proof. unfold lift. destruct b; [done|discriminate]. Qed.

(** X11. Whatever the collaborators do, a [create_page] that returns
    was called with valid arguments: revision support is there if a
    revision was asked for, the template is the inheritance marker or
    a registered template that loads, the language is enabled for the
    site, a given parent is in the store, a given navigation extender
    is an enabled menu, the visibility limit and the position are
    accepted values, a given apphook passes [_verify_apphook], and a
    given [reverse_id] is carried by no draft page of the site. *)
Theorem create_page_accepts_only_valid a s page s' :
  create_page env move publish make_revision_with_plugins a s = (Ok page, s') →
  let site_id := default (current_site env) (a_site a) in
  (a_with_revision a = true → reversion_installed env = true) ∧
  (a_template a = TEMPLATE_INHERITANCE_MAGIC env ∨
   a_template a ∈ TEMPLATES env ∧ get_template env (a_template a) = Ok tt) ∧
  a_language a ∈ get_language_list env site_id ∧
  (∀ p, a_parent a = Some p → ∃ k, pk p = Some k ∧ is_Some (pages s !! k)) ∧
  (truthy_ostr (a_navigation_extenders a) = true →
   default "" (a_navigation_extenders a) ∈ cms_enabled_menus env) ∧
  a_limit_visibility_in_menu a ∈ accepted_limitations env ∧
  a_position a ∈ ["last-child"; "first-child"; "left"; "right"] ∧
  (Apphooks.truthy_apphook (a_apphook a) = true →
   ∃ name, Apphooks._verify_apphook (apps env) (a_apphook a)
             (a_apphook_namespace a) = Ok name) ∧
  (∀ rid, a_reverse_id a = Some rid → rid ≠ "" →
   ∀ k r, pages s !! k = Some r → publisher_is_draft r = true →
          reverse_id r = Some rid → site r ≠ site_id).
Proof.
  intros H site_id. unfold create_page in H. chain_inv H. clear H.
  match goal with
  | Hv : validate _ _ _ = _, Hc : check_reverse_id _ _ _ = _ |- _ =>
      rename Hv into Hval; rename Hc into Hrid
  end.
  destruct (validate_site _ _ _ _ _ Hval) as [Hsite Hlang].
  destruct (reads_validate _ _ _ _ _ Hval) as [Hpages _].
  assert (Hfree : ∀ rid, a_reverse_id a = Some rid → rid ≠ "" →
            ∀ k r, pages s !! k = Some r → publisher_is_draft r = true →
                   reverse_id r = Some rid → site r ≠ site_id).
  { intros rid Ha Hne. rewrite <- Hpages. subst site_id. rewrite <- Hsite.
    apply count_drafts_zero.
    unfold check_reverse_id in Hrid. rewrite Ha in Hrid.
    destruct (truthy_str rid) eqn:Ht; [|by destruct rid].
    unfold mbind, py_bind, query in Hrid.
    destruct (bool_decide _) eqn:Hz in Hrid; [discriminate|].
    apply bool_decide_eq_false in Hz. by apply dec_stable in Hz. }
  clear Hrid Hpages. unfold validate in Hval. chain_inv Hval. clear Hval.
  repeat match goal with
  | Hl : lift (py_assert _) _ = (Ok _, _) |- _ =>
      let Hs := fresh "Hs" in
      assert (Hs := Hl); injection Hs as _ <-;
      apply lift_assert_Ok, bool_decide_eq_true in Hl
  end.
  match goal with
  | Hx : (if a_with_revision a then _ else _) ?s1 = (Ok _, ?s2) |- _ =>
      assert (s2 = s1 ∧
              (a_with_revision a = true → reversion_installed env = true))
        as [-> Hrev];
      [ destruct (a_with_revision a); [|by injection Hx as _ <-];
        unfold lift, _verify_revision_support in Hx;
        destruct (reversion_installed env); [|discriminate];
        by injection Hx as _ <-
      | clear Hx ]
  end.
  match goal with
  | Hx : (if bool_decide (a_template a = _) then _ else _) ?s1 = (Ok _, ?s2)
    |- _ =>
      assert (s2 = s1 ∧
              (a_template a = TEMPLATE_INHERITANCE_MAGIC env ∨
               a_template a ∈ TEMPLATES env ∧
               get_template env (a_template a) = Ok tt))
        as [-> Htpl];
      [ destruct (bool_decide (a_template a = _)) eqn:Hmagic in Hx;
        [apply bool_decide_eq_true in Hmagic; injection Hx as _ <-; auto|];
        chain_inv Hx;
        match goal with
        | Hl : lift (py_assert _) _ = (Ok _, _) |- _ =>
            let Hs := fresh "Hs" in
            assert (Hs := Hl); injection Hs as _ <-;
            apply lift_assert_Ok, bool_decide_eq_true in Hl
        end;
        unfold lift in Hx; injection Hx as Hg <-;
        split; [done|]; right; split; [done|];
        rewrite Hg; f_equal; by destruct_all unit
      | clear Hx ]
  end.
  match goal with
  | Hx : (if truthy_ostr (a_slug a) then _ else _) ?s1 = (Ok _, ?s2) |- _ =>
      assert (s2 = s1) as ->;
      [ by destruct (truthy_ostr (a_slug a)); injection Hx as _ <- | clear Hx ]
  end.
  match goal with
  | Hx : match a_parent a with _ => _ end ?s1 = (Ok _, ?s2) |- _ =>
      assert (s2 = s1 ∧
              ∀ p, a_parent a = Some p →
                   ∃ k, pk p = Some k ∧ is_Some (pages s1 !! k))
        as [-> Hparent];
      [ destruct (a_parent a) as [p|];
        [|injection Hx as _ <-; split; [done|]; by intros ?];
        unfold mbind, py_bind, get_page in Hx;
        destruct (pk p) as [k|] eqn:Hk; [|discriminate];
        cbn in Hx; destruct (pages s1 !! k) eqn:Hr; [|discriminate];
        injection Hx as _ <-; split; [done|];
        intros ? [= <-]; exists k; by rewrite Hr
      | clear Hx ]
  end.
  match goal with
  | Hx : (if truthy_ostr (a_navigation_extenders a) then _ else _) _ = _
    |- _ =>
      assert (Hnav : truthy_ostr (a_navigation_extenders a) = true →
                default "" (a_navigation_extenders a) ∈ cms_enabled_menus env);
      [ intros Ht; rewrite Ht in Hx;
        by apply lift_assert_Ok, bool_decide_eq_true in Hx
      | clear Hx ]
  end.
  match goal with
  | Hx : (if Apphooks.truthy_apphook (a_apphook a) then _ else _) _ = _
    |- _ =>
      assert (Happ : Apphooks.truthy_apphook (a_apphook a) = true →
                ∃ name, Apphooks._verify_apphook (apps env) (a_apphook a)
                          (a_apphook_namespace a) = Ok name);
      [ intros Ht; rewrite Ht in Hx; unfold mbind, py_bind, lift in Hx;
        destruct (Apphooks._verify_apphook _ _ _) as [name|];
        [by exists name | discriminate]
      | clear Hx ]
  end.
  by split_and!.
Qed.

Lemma stashes_bind {A B} u (m : py Store A) (k : A → py Store B) :
  reads_only m → (∀ x, stashes u (k x)) → stashes u (m ≫= k).
Proof.
  intros Hm Hk s r s1. unfold mbind, py_bind.
  destruct (m s) as [[x|e] s0] eqn:Hms; intros Hr.
  - apply Hm in Hms as ->. by apply Hk in Hr.
  - simplify_eq. by apply Hm in Hms.
Qed.

Lemma validate_stashes a :
  stashes (stashed_user (a_created_by a)) (validate env a).
Proof.
  unfold validate, generate_valid_slug.
  repeat (apply stashes_bind;
    [ solve [ repeat first
        [ apply reads_only_bind; [|intros ?]
        | apply reads_only_ret | apply reads_only_lift
        | apply reads_only_query | apply reads_only_get_page
        | match goal with
          | |- reads_only (if ?b then _ else _) => destruct b
          | |- reads_only (match ?x with _ => _ end) => destruct x
          end ] ]
    | intros ? ]).
  intros s r s1. by destruct (a_created_by a); intros [= <- <-].
Qed.

(** X12. When the collaborators do their part, a [create_page] that
    raises has written no row: either a check failed and the whole
    store is as it was, or the [reverse_id] is taken, the error is
    [FieldError], and the only change is that [_thread_locals.user] is
    left holding the user given as [created_by] (or [None]) instead of
    being deleted. *)
Theorem create_page_failure_writes_no_row a s e s' :
  collaborators_ok move publish make_revision_with_plugins →
  create_page env move publish make_revision_with_plugins a s = (Raise e, s') →
  s' = s ∨
  ∃ rid, a_reverse_id a = Some rid ∧
         e = FieldError ("A page with the reverse_id=" +:+ dquote +:+ rid
                         +:+ dquote +:+ " already exist.") ∧
         s' = set_thread_user (stashed_user (a_created_by a)) s.
Proof.
  intros Hcollab. unfold create_page, mbind at 1, py_bind at 1.
  destruct (validate env a s) as [[c|e0] s1] eqn:Hval.
  - pose proof (validate_stashes a s _ _ Hval) as Hs1. cbn in Hs1.
    destruct (validate_site _ _ _ _ _ Hval) as [_ Hlang].
    unfold mbind, py_bind.
    destruct (check_reverse_id a c s1) as [[[]|e1] s2] eqn:Hrid.
    + assert (s2 = s1) as ->.
      { unfold check_reverse_id, mbind, py_bind, query, raise, mret, py_ret
          in Hrid.
        repeat case_match; by simplify_eq. }
      destruct (build_ok env move publish make_revision_with_plugins a c s1
                  Hcollab Hlang) as (page & s3 & k & -> & _).
      discriminate.
    + intros [= <- <-]. right.
      unfold check_reverse_id, mbind, py_bind, query, raise, mret, py_ret
        in Hrid.
      destruct (a_reverse_id a) as [rid|]; [|discriminate].
      exists rid. repeat case_match; by simplify_eq.
  - intros [= <- <-]. left. exact (validate_stashes a s _ _ Hval).
Qed.

(** X13. [create_title] called without slug and without revision, in
    a language enabled for the page's site, creates one title row
    under a fresh key, for that page and language, and leaves the
    pages and [_thread_locals.user] alone; the slug it generates is
    used by no existing title of the same language whose page has the
    parent given as [parent]. *)
Theorem create_title_default_slug_unique lang title (page : Page) menu_title
    slug redirect meta_description (parent : option Page) overwrite_url s :
  lang ∈ get_language_list env (site page) →
  truthy_ostr slug = false →
  ∃ t s' k,
    create_title env make_revision_with_plugins lang title page menu_title
      slug redirect meta_description parent overwrite_url false s
      = (Ok t, s') ∧
    title_pk t = Some k ∧ titles s !! k = None ∧
    titles s' = <[k := title_row t]> (titles s) ∧
    pages s' = pages s ∧ thread_user s' = thread_user s ∧
    language t = lang ∧ Pages.page t = pk page ∧
    (∀ k' r, titles s !! k' = Some r → language r = lang →
             (Pages.page r ≫= (pages s !!.)) ≫= parent_id = parent ≫= pk →
             Pages.slug r ≠ Pages.slug t).
Proof.
  intros Hlang Hslug.
  assert (Hfresh : titles s !! fresh (dom (titles s)) = None)
    by apply not_elem_of_dom, is_fresh.
  destruct (valid_slug_first_free (slugify env) (sibling_view s) title
              (parent ≫= pk) lang) as (m & Hm & Hfree & _).
  assert (Huniq : ∀ k' r, titles s !! k' = Some r → language r = lang →
            (Pages.page r ≫= (pages s !!.)) ≫= parent_id = parent ≫= pk →
            Pages.slug r ≠
              Slug.valid_slug (slugify env) (sibling_view s) title
                (parent ≫= pk) lang).
  { intros k' r Hr Hl Hp Heq. apply Hfree. rewrite <- Hm, <- Heq.
    apply (elem_of_used_slugs (slugify env)).
    exists {| Slug.language := language r; Slug.slug := Pages.slug r;
              Slug.page_parent :=
                (Pages.page r ≫= (pages s !!.)) ≫= parent_id |}.
    split_and!; try done.
    unfold sibling_view. apply list_elem_of_fmap. exists (k', r).
    split; [done|]. by apply elem_of_map_to_list. }
  unfold create_title, generate_valid_slug.
  rewrite bool_decide_eq_true_2, Hslug by done.
  destruct (truthy_ostr overwrite_url); cbn;
    eexists _, _, _; (split; [reflexivity|]); cbn;
    rewrite ?insert_insert_eq; split_and!; done.
Qed.

End page_extras.

Section page_extras_examples.
Import Pages.

Lemma revision_request_fails_fast_witness :
  let e := ImproperlyConfigured
    "You have requested to create a revision but the reversion app is not in settings.INSTALLED_APPS" in
  _verify_revision_support demo_env = Raise e ∧
  (∀ a s, a_with_revision a = true →
     create_page demo_env demo_move demo_publish demo_revision a s
       = (Raise e, s)) ∧
  (∀ lang title page menu_title slug redirect meta_description parent
     overwrite_url s,
     create_title demo_env demo_revision lang title page menu_title
       slug redirect meta_description parent overwrite_url true s
     = (Raise (if bool_decide (lang ∈ get_language_list demo_env (site page))
               then e else AssertionError), s)).
Proof.
  intros e. split; [reflexivity|].
  apply (revision_request_fails_fast demo_env demo_move demo_publish
           demo_revision e).
  reflexivity.
Defined.

Lemma create_page_returns_stored_page_witness :
  ∃ page s',
    create_page demo_env demo_move demo_publish demo_revision
      (demo_args Apphooks.AppNone None None None) demo_store = (Ok page, s') ∧
    thread_user s' = None ∧
    ∃ k, pk page = Some k ∧ pages s' !! k = Some (row page).
Proof.
  eexists _, _. split; [vm_compute; reflexivity|].
  match goal with
  | |- thread_user ?s' = None ∧ (∃ k, pk ?page = Some k ∧ _) =>
      apply (create_page_returns_stored_page demo_env demo_move demo_publish
               demo_revision (demo_args Apphooks.AppNone None None None)
               demo_store page s')
  end.
  vm_compute. reflexivity.
Defined.

Lemma create_page_accepts_only_valid_witness :
  let a := demo_args Apphooks.AppNone None (Some "news") None in
  ∃ page s',
    create_page demo_env demo_move demo_publish demo_revision a demo_store
      = (Ok page, s') ∧
    (a_with_revision a = true → reversion_installed demo_env = true) ∧
    (a_template a = TEMPLATE_INHERITANCE_MAGIC demo_env ∨
     a_template a ∈ TEMPLATES demo_env ∧
     get_template demo_env (a_template a) = Ok tt) ∧
    a_language a ∈ get_language_list demo_env 1 ∧
    (∀ p, a_parent a = Some p →
          ∃ k, pk p = Some k ∧ is_Some (pages demo_store !! k)) ∧
    (truthy_ostr (a_navigation_extenders a) = true →
     default "" (a_navigation_extenders a) ∈ cms_enabled_menus demo_env) ∧
    a_limit_visibility_in_menu a ∈ accepted_limitations demo_env ∧
    a_position a ∈ ["last-child"; "first-child"; "left"; "right"] ∧
    (Apphooks.truthy_apphook (a_apphook a) = true →
     ∃ name, Apphooks._verify_apphook (apps demo_env) (a_apphook a)
               (a_apphook_namespace a) = Ok name) ∧
    (∀ rid, a_reverse_id a = Some rid → rid ≠ "" →
     ∀ k r, pages demo_store !! k = Some r → publisher_is_draft r = true →
            reverse_id r = Some rid → site r ≠ 1).
Proof.
  intros a. eexists _, _. split; [vm_compute; reflexivity|].
  eapply (create_page_accepts_only_valid demo_env demo_move demo_publish
            demo_revision a demo_store).
  vm_compute. reflexivity.
Defined.

Lemma create_page_failure_writes_no_row_witness :
  let a := demo_args Apphooks.AppNone None (Some "home") None in
  collaborators_ok demo_move demo_publish demo_revision ∧
  ∃ e s',
    create_page demo_env demo_move demo_publish demo_revision a demo_store
      = (Raise e, s') ∧
    (s' = demo_store ∨
     ∃ rid, a_reverse_id a = Some rid ∧
            e = FieldError ("A page with the reverse_id=" +:+ dquote +:+ rid
                            +:+ dquote +:+ " already exist.") ∧
            s' = set_thread_user (stashed_user (a_created_by a)) demo_store).
Proof.
  intros a. split; [apply demo_collaborators_ok|].
  eexists _, _. split; [vm_compute; reflexivity|].
  match goal with
  | |- ?s' = demo_store ∨ (∃ rid, _ ∧ ?e = _ ∧ _) =>
      apply (create_page_failure_writes_no_row demo_env demo_move
               demo_publish demo_revision a demo_store e s');
        [apply demo_collaborators_ok|]
  end.
  vm_compute. reflexivity.
Defined.

Lemma create_title_default_slug_unique_witness :
  let home := {| pk := Some 1; row := home_row |} in
  "de" ∈ get_language_list demo_env (site home) ∧
  ∃ t s' k,
    create_title demo_env demo_revision "de" "Startseite" home None None None
      None None None false demo_store = (Ok t, s') ∧
    title_pk t = Some k ∧ titles demo_store !! k = None ∧
    titles s' = <[k := title_row t]> (titles demo_store) ∧
    pages s' = pages demo_store ∧
    thread_user s' = thread_user demo_store ∧
    language t = "de" ∧ Pages.page t = pk home ∧
    (∀ k' r, titles demo_store !! k' = Some r → language r = "de" →
             (Pages.page r ≫= (pages demo_store !!.)) ≫= parent_id
               = None ≫= pk →
             Pages.slug r ≠ Pages.slug t).
Proof.
  intros home.
  assert (Hlang : "de" ∈ get_language_list demo_env (site home)).
  { simpl. right. left. }
  split; [exact Hlang|].
  apply (create_title_default_slug_unique demo_env demo_revision "de"
           "Startseite" home None None None None None None demo_store);
    [exact Hlang|reflexivity].
Defined.

End page_extras_examples.

(** ** Further properties of the publication workflow *)

Section publication_extras.
Import Publication.

Variable publish_db : Page → string → option string → DB → result bool * DB.

Lemma publish_languages_untargeted p l langs ol add s :
  l ∉ langs →
  publish_languages publish_db p (Some l) langs ol add s = (Ok (ol, add), s).
Proof.
  induction langs as [|lang langs IH]; intros Hl; [done|].
  apply not_elem_of_cons in Hl as [Hne Hl]. simpl.
  rewrite (bool_decide_eq_false_2 (Some lang = Some l)) by congruence.
  simpl. by apply IH.
Qed.

Lemma publish_each_untargeted incl l qs : ∀ s,
  (∀ p, p ∈ qs → l ∉ title_languages incl p (db s)) →
  publish_each publish_db incl (Some l) None qs s =
    (Ok ((λ p, (p, true)) <$> qs),
     {| db := db s; acting_user := acting_user s;
        calls := calls s ++ replicate (length qs) (Activated None) |}).
Proof.
  induction qs as [|p qs IH]; intros s Hqs.
  - simpl. rewrite app_nil_r. by destruct s.
  - simpl. unfold publish_one.
    unfold mbind at 1, py_bind at 1.
    rewrite (bind_run (query _) _ s _ s eq_refl).
    rewrite (bind_run _ _ _ _ _
               (publish_languages_untargeted p l _ None true s
                  (Hqs p ltac:(left)))).
    unfold mbind, py_bind, activate, mret, py_ret. cbn.
    rewrite IH.
    + cbn. by rewrite <- app_assoc.
    + intros q Hq. cbn. apply Hqs. by right.
Qed.

(** X14. When no selected page has a title in the requested language,
    [publish_pages] publishes nothing and still reports success: it
    yields every selected page with the flag true, the tables are
    untouched, and the only calls are one [activate(None)] per
    page. *)
Theorem publish_pages_language_without_titles incl l site_id s :
  (∀ p, p ∈ selected incl site_id (db s) →
        l ∉ title_languages incl p (db s)) →
  publish_pages publish_db incl (Some l) site_id s =
    (Ok ((λ p, (p, true)) <$> selected incl site_id (db s)),
     {| db := db s; acting_user := acting_user s;
        calls := calls s ++
          replicate (length (selected incl site_id (db s)))
            (Activated None) |}).
Proof.
  intros Hl. unfold publish_pages.
  rewrite (bind_run (query _) _ s _ s eq_refl).
  by apply publish_each_untargeted.
Qed.


End publication_extras.

Section publication_extras_examples.
Import Publication.

Lemma publish_pages_language_without_titles_witness :
  Forall (λ p, "fr" ∉ title_languages false p (db demo_store))
    (selected false None (db demo_store)) ∧
  publish_pages demo_publish_db false (Some "fr") None demo_store =
    (Ok ((λ p, (p, true)) <$> selected false None (db demo_store)),
     {| db := db demo_store; acting_user := acting_user demo_store;
        calls := calls demo_store ++
          replicate (length (selected false None (db demo_store)))
            (Activated None) |}).
Proof.
  assert (Hall : Forall (λ p, "fr" ∉ title_languages false p (db demo_store))
                   (selected false None (db demo_store))).
  { apply (bool_decide_unpack _). vm_compute. exact I. }
  split; [exact Hall|].
  apply (publish_pages_language_without_titles demo_publish_db false "fr"
           None demo_store).
  by apply Forall_forall.
Defined.


End publication_extras_examples.

(** ** Further properties of the language copy *)

Section copy_extras.
Import LanguageCopy.

Variable get_placeholders : nat → list nat.
Variable copy_db :
  list CMSPlugin → nat → string → gmap nat Row →
  result (list CMSPlugin) * gmap nat Row.

Lemma copy_each_occupied phs src tgt copied s :
  (∀ ph, ph ∈ phs → exists_in_language tgt ph (plugins s) = true) →
  copy_each copy_db phs src tgt true copied s = (Ok copied, s).
Proof.
  induction phs as [|ph phs IH]; intros Hocc; [done|].
  simpl. rewrite (bind_run (query _) _ s _ s eq_refl).
  rewrite (Hocc ph) by left. simpl. apply IH. intros ph' ?. apply Hocc.
  by right.
Qed.

(** X16. With [only_empty] (the default), when every placeholder of
    the page already has a plugin in the target language,
    [copy_plugins_to_language] returns 0 and leaves the store as it
    was: [copy_plugins_to] is not called, whatever it would do. *)
Theorem copy_plugins_to_language_all_occupied page src tgt s :
  (∀ ph, ph ∈ get_placeholders page →
         exists_in_language tgt ph (plugins s) = true) →
  copy_plugins_to_language get_placeholders copy_db page src tgt true s
    = (Ok 0, s).
Proof. apply copy_each_occupied. Qed.

Lemma copy_each_same_language (Hcopy : copies_faithfully copy_db) lang phs :
  ∀ copied s, ∃ s' new,
    copy_each copy_db phs lang lang true copied s = (Ok copied, s') ∧
    (∀ k r, plugins s !! k = Some r → plugins s' !! k = Some r) ∧
    copy_calls s' = copy_calls s ++ new ∧
    Forall (λ c, c_plugins c = [] ∧ c_returned c = Some []) new.
Proof.
  induction phs as [|ph phs IH]; intros copied s.
  - exists s, []. split_and!; [done..| |done]. by rewrite app_nil_r.
  - simpl. rewrite (bind_run (query _) _ s _ s eq_refl).
    destruct (exists_in_language lang ph (plugins s)) eqn:Hocc; simpl.
    { apply IH. }
    assert (Hnil : in_language lang ph (plugins s) = []).
    { unfold exists_in_language in Hocc. by destruct (in_language _ _ _). }
    rewrite (bind_run (query _) _ s _ s eq_refl), Hnil.
    destruct (Hcopy [] ph lang (plugins s))
      as (copies & t' & Hrun & Hall & _ & Hkeep & _).
    apply Forall2_nil_inv_l in Hall as ->.
    set (c := {| c_plugins := []; c_placeholder := ph;
                 c_language := lang; c_returned := Some [] |}).
    set (s1 := {| plugins := t'; copy_calls := copy_calls s ++ [c] |}).
    assert (Hstep : copy_plugins_to copy_db (merge_sort path_le []) ph lang s
                    = (Ok [], s1)).
    { unfold copy_plugins_to. cbn. by rewrite Hrun. }
    rewrite (bind_run _ _ _ _ _ Hstep). simpl. rewrite Nat.add_0_r.
    destruct (IH copied s1) as (s' & new & Hrec & Hkeep' & Hcalls & Hnew).
    exists s', (c :: new). split_and!; [done|auto| |by constructor].
    rewrite Hcalls. simpl. by rewrite <- app_assoc.
Qed.

(** X17. With [only_empty], copying a language onto itself copies
    nothing: a placeholder is either occupied, and skipped, or has no
    plugin to copy.  The call returns 0, keeps every row, and every
    call of [copy_plugins_to] it makes is on the empty list. *)
Theorem copy_plugins_to_language_same_language page lang s :
  copies_faithfully copy_db →
  ∃ s' new,
    copy_plugins_to_language get_placeholders copy_db page lang lang true s
      = (Ok 0, s') ∧
    (∀ k r, plugins s !! k = Some r → plugins s' !! k = Some r) ∧
    copy_calls s' = copy_calls s ++ new ∧
    Forall (λ c, c_plugins c = [] ∧ c_returned c = Some []) new.
Proof. intros Hcopy. by apply copy_each_same_language. Qed.

Lemma settled_copy (Hcopy : copies_faithfully copy_db) src tgt old ph0 t
    copied t' ph :
  src ≠ tgt →
  copy_db old ph0 tgt t = (Ok copied, t') →
  settled src tgt t ph → settled src tgt t' ph.
Proof.
  intros Hne Hrun Hs.
  destruct (Hcopy old ph0 tgt t) as (c0 & t0 & Hrun0 & _ & _ & Hkeep & Hnew).
  rewrite Hrun in Hrun0. injection Hrun0 as <- <-.
  destruct Hs as [Hocc|Hnil].
  - left. apply exists_in_language_true in Hocc as (k & r & Hk & ? & ?).
    apply exists_in_language_true. exists k, r. auto.
  - right. apply elem_of_nil_inv. intros x Hx.
    apply elem_of_in_language in Hx as (k & Hpk & Hk & Hph & Hl).
    destruct (t !! k) as [r|] eqn:Hk0.
    + assert (Hx : x ∈ in_language src ph t).
      { apply elem_of_in_language. exists k. split_and!; try done.
        pose proof (Hkeep _ _ Hk0). congruence. }
      rewrite Hnil in Hx. by apply elem_of_nil in Hx.
    + destruct (Hnew k _ Hk0 Hk) as [_ Hlang]. congruence.
Qed.

Lemma copy_each_settles (Hcopy : copies_faithfully copy_db)
    (Hstore : stores_copies copy_db) src tgt (Hne : src ≠ tgt) phs :
  ∀ copied s n s1,
    copy_each copy_db phs src tgt true copied s = (Ok n, s1) →
    ∀ ph, settled src tgt (plugins s) ph ∨ ph ∈ phs →
          settled src tgt (plugins s1) ph.
Proof.
  induction phs as [|ph0 phs IH]; intros copied s n s1 Hrun ph Hph.
  - injection Hrun as _ <-. destruct Hph as [?|Hin]; [done|].
    by apply elem_of_nil in Hin.
  - simpl in Hrun. rewrite (bind_run (query _) _ s _ s eq_refl) in Hrun.
    destruct (exists_in_language tgt ph0 (plugins s)) eqn:Hocc;
      simpl in Hrun.
    { apply (IH _ _ _ _ Hrun).
      destruct Hph as [?|[->|?]%elem_of_cons]; [by left| |by right].
      left. by left. }
    rewrite (bind_run (query _) _ s _ s eq_refl) in Hrun.
    set (old := merge_sort path_le (in_language src ph0 (plugins s))) in *.
    destruct (Hcopy old ph0 tgt (plugins s)) as (copies & t' & Hdb & _).
    set (s' := {| plugins := t';
                  copy_calls := copy_calls s ++
                    [{| c_plugins := old; c_placeholder := ph0;
                        c_language := tgt; c_returned := Some copies |}] |}).
    assert (Hstep : copy_plugins_to copy_db old ph0 tgt s = (Ok copies, s')).
    { unfold copy_plugins_to. by rewrite Hdb. }
    rewrite (bind_run _ _ _ _ _ Hstep) in Hrun.
    apply (IH _ _ _ _ Hrun).
    destruct Hph as [Hs|[->|?]%elem_of_cons]; [left| |by right].
    + by apply (settled_copy Hcopy src tgt old ph0 (plugins s) copies t').
    + left. destruct (decide (old = [])) as [Hold|Hold].
      * apply (settled_copy Hcopy src tgt old ph0 (plugins s) copies t');
          [done..|].
        right. apply Permutation_nil_r. rewrite <- Hold. subst old.
        by rewrite merge_sort_Permutation.
      * left. by apply (Hstore old ph0 tgt (plugins s) copies t').
Qed.

Lemma copy_each_settled (Hcopy : copies_faithfully copy_db) src tgt
    (Hne : src ≠ tgt) phs :
  ∀ copied s,
    (∀ ph, ph ∈ phs → settled src tgt (plugins s) ph) →
    ∃ s', copy_each copy_db phs src tgt true copied s = (Ok copied, s') ∧
          ∀ k r, plugins s !! k = Some r → plugins s' !! k = Some r.
Proof.
  induction phs as [|ph0 phs IH]; intros copied s Hs.
  - by exists s.
  - simpl. rewrite (bind_run (query _) _ s _ s eq_refl).
    destruct (exists_in_language tgt ph0 (plugins s)) eqn:Hocc; simpl.
    { apply IH. intros ph ?. apply Hs. by right. }
    destruct (Hs ph0) as [Hocc'|Hnil]; [by left|congruence|].
    rewrite (bind_run (query _) _ s _ s eq_refl), Hnil.
    destruct (Hcopy [] ph0 tgt (plugins s))
      as (copies & t' & Hdb & Hall & _ & Hkeep & _).
    apply Forall2_nil_inv_l in Hall as ->.
    set (s1 := {| plugins := t';
                  copy_calls := copy_calls s ++
                    [{| c_plugins := []; c_placeholder := ph0;
                        c_language := tgt; c_returned := Some [] |}] |}).
    assert (Hstep : copy_plugins_to copy_db (merge_sort path_le []) ph0 tgt s
                    = (Ok [], s1)).
    { unfold copy_plugins_to. cbn. by rewrite Hdb. }
    rewrite (bind_run _ _ _ _ _ Hstep). simpl. rewrite Nat.add_0_r.
    destruct (IH copied s1) as (s' & Hrec & Hkeep').
    { intros ph ?.
      apply (settled_copy Hcopy src tgt [] ph0 (plugins s) [] t');
        [done..|]. apply Hs. by right. }
    exists s'. split; [done|]. auto.
Qed.

(** X18. With [only_empty] and distinct languages, when
    [copy_plugins_to] is faithful and stores what it copies, running
    [copy_plugins_to_language] a second time copies nothing: it
    returns 0 and keeps every row. *)
Theorem copy_plugins_to_language_twice page src tgt s n s1 :
  copies_faithfully copy_db →
  stores_copies copy_db →
  src ≠ tgt →
  copy_plugins_to_language get_placeholders copy_db page src tgt true s
    = (Ok n, s1) →
  ∃ s2,
    copy_plugins_to_language get_placeholders copy_db page src tgt true s1
      = (Ok 0, s2) ∧
    ∀ k r, plugins s1 !! k = Some r → plugins s2 !! k = Some r.
Proof.
  intros Hcopy Hstore Hne Hrun. apply copy_each_settled; [done..|].
  intros ph Hph.
  apply (copy_each_settles Hcopy Hstore src tgt Hne _ _ _ _ _ Hrun). by right.
Qed.

End copy_extras.

Section copy_extras_examples.
Import LanguageCopy.

Lemma demo_copy_stores : stores_copies demo_copy.
Proof.
  intros old ph lang t copied t' Hrun Hold. unfold demo_copy in Hrun.
  destruct old as [|p old]; [done|]. simpl in Hrun.
  set (k0 := fresh (dom t)) in *.
  set (r0 := {| placeholder := ph; language := lang; path := path p;
                plugin_type := plugin_type p |}) in *.
  destruct (demo_copy_db old ph lang (<[k0 := r0]> t)) as [cs t1] eqn:Hrec.
  injection Hrun as _ <-.
  destruct (demo_copy_db_spec _ _ _ _ _ _ Hrec) as (_ & Hkeep & _).
  apply exists_in_language_true. exists k0, r0. split_and!; [|done..].
  apply Hkeep. by rewrite lookup_insert_eq.
Qed.

Lemma copy_plugins_to_language_all_occupied_witness :
  Forall (λ ph, exists_in_language "en" ph (plugins demo_store) = true)
    (demo_placeholders 1) ∧
  copy_plugins_to_language demo_placeholders demo_copy 1 "de" "en" true
    demo_store = (Ok 0, demo_store).
Proof.
  assert (Hall : Forall (λ ph, exists_in_language "en" ph (plugins demo_store)
                               = true) (demo_placeholders 1)).
  { apply (bool_decide_unpack _). vm_compute. exact I. }
  split; [exact Hall|].
  apply (copy_plugins_to_language_all_occupied demo_placeholders demo_copy 1
           "de" "en" demo_store).
  by apply Forall_forall.
Defined.

Lemma copy_plugins_to_language_same_language_witness :
  copies_faithfully demo_copy ∧
  ∃ s' new,
    copy_plugins_to_language demo_placeholders demo_copy 1 "de" "de" true
      demo_store = (Ok 0, s') ∧
    (∀ k r, plugins demo_store !! k = Some r → plugins s' !! k = Some r) ∧
    copy_calls s' = copy_calls demo_store ++ new ∧
    Forall (λ c, c_plugins c = [] ∧ c_returned c = Some []) new.
Proof.
  split; [apply demo_copy_faithful|].
  apply (copy_plugins_to_language_same_language demo_placeholders demo_copy 1
           "de" demo_store), demo_copy_faithful.
Defined.

Lemma copy_plugins_to_language_twice_witness :
  copies_faithfully demo_copy ∧ stores_copies demo_copy ∧ "en" ≠ "de" ∧
  ∃ n s1,
    copy_plugins_to_language demo_placeholders demo_copy 1 "en" "de" true
      demo_store = (Ok n, s1) ∧
    ∃ s2,
      copy_plugins_to_language demo_placeholders demo_copy 1 "en" "de" true
        s1 = (Ok 0, s2) ∧
      ∀ k r, plugins s1 !! k = Some r → plugins s2 !! k = Some r.
Proof.
  split; [apply demo_copy_faithful|]. split; [apply demo_copy_stores|].
  split; [done|].
  eexists _, _. split; [vm_compute; reflexivity|].
  match goal with
  | |- ∃ s2, copy_plugins_to_language _ _ _ _ _ _ ?s1 = _ ∧ _ =>
      apply (copy_plugins_to_language_twice demo_placeholders demo_copy 1
               "en" "de" demo_store 2 s1);
        [apply demo_copy_faithful|apply demo_copy_stores|done|]
  end.
  vm_compute. reflexivity.
Defined.

End copy_extras_examples.

(** ** Further properties of the page users *)

Lemma bind_inv {S A B} (m : py S A) (k : A → py S B) s r s' :
  (m ≫= k) s = (r, s') →
  (∃ a s1, m s = (Ok a, s1) ∧ k a s1 = (r, s')) ∨
  (∃ e, m s = (Raise e, s') ∧ r = Raise e).
Proof.
  unfold mbind, py_bind. destruct (m s) as [[a|e] s1]; intros H.
  - left. eauto.
  - right. injection H as <- <-. eauto.
Qed.

Section page_user_extras.
Import PageUsers.

Variable local_fields : list string.

Lemma copy_fields_effects user page_user fields : ∀ s r s',
  for_each fields (λ field, v ← getattr user field; setattr page_user field v)
    s = (r, s') →
  effects s' = effects s ∧ dom (heap s') = dom (heap s) ∧
  match r with
  | Ok _ => True
  | Raise e => ∃ f, f ∈ fields ∧ e = AttributeError f
  end.
Proof.
  induction fields as [|f fields IH]; intros s r s' Hrun.
  - by injection Hrun as <- <-.
  - simpl in Hrun.
    apply bind_inv in Hrun as [(u & s1 & Hbody & Hrun)|(e & Hbody & ->)];
      apply bind_inv in Hbody as [(v & s0 & Hget & Hset)|(e' & Hget & ?)];
      unfold getattr in Hget; destruct (heap s !! user ≫= _);
      simplify_eq.
    + injection Hset as _ <-.
      apply IH in Hrun as (He & Hd & Hr). cbn in He, Hd.
      rewrite dom_alter_L in Hd. split_and!; [done..|].
      destruct r; [done|]. destruct Hr as (g & ? & ->). exists g.
      split; [by right|done].
    + split_and!; [done..|]. exists f. split; [left|done].
Qed.

(** X19. [create_page_user] saves all or nothing: a call that returns
    gives back [user] and has made exactly three writes, the user, the
    new [PageUser] and the permissions (all granted with [grant_all]),
    in this order; a call that raises has made none.  It raises
    [AssertionError] with the store as it was exactly when
    [created_by] is not an instance of the user model, and
    [AttributeError] otherwise. *)
Theorem create_page_user_saves_all_or_nothing created_by user data grant_all
    s r s' :
  create_page_user local_fields created_by user data grant_all s = (r, s') →
  match r with
  | Ok returned =>
      returned = user ∧
      from_option is_user_model false (heap s !! created_by) = true ∧
      ∃ page_user snapshot snapshot',
        heap s !! page_user = None ∧
        effects s' = effects s ++
          [Saved user snapshot; Saved page_user snapshot';
           SavedPermissions (if grant_all then all_granted else data)
             page_user]
  | Raise e =>
      effects s' = effects s ∧
      if from_option is_user_model false (heap s !! created_by)
      then ∃ f, e = AttributeError f
      else e = AssertionError ∧ s' = s
  end.
Proof.
  assert (Hcreate : ∀ d,
    create local_fields created_by user d s = (r, s') →
    match r with
    | Ok returned =>
        returned = user ∧
        from_option is_user_model false (heap s !! created_by) = true ∧
        ∃ page_user snapshot snapshot',
          heap s !! page_user = None ∧
          effects s' = effects s ++
            [Saved user snapshot; Saved page_user snapshot';
             SavedPermissions d page_user]
    | Raise e =>
        effects s' = effects s ∧
        if from_option is_user_model false (heap s !! created_by)
        then ∃ f, e = AttributeError f
        else e = AssertionError ∧ s' = s
    end).
  2: { unfold create_page_user. destruct grant_all; apply Hcreate. }
  intros d Hrun. unfold create in Hrun.
  apply bind_inv in Hrun as [(b & s0 & Hq & Hrun)|(e & Hq & ->)];
    [injection Hq as <- <-|discriminate Hq].
  destruct (from_option is_user_model false (heap s !! created_by)).
  2: { apply bind_inv in Hrun as [(? & ? & Hq & _)|(e & Hq & ->)];
         [discriminate Hq|by injection Hq as <- <-]. }
  apply bind_inv in Hrun as [([] & s0 & Hq & Hrun)|(e & Hq & ->)];
    [injection Hq as <-|discriminate Hq].
  apply bind_inv in Hrun as [([] & s1 & Hq & Hrun)|(e & Hq & ->)];
    [injection Hq as <-|discriminate Hq].
  apply bind_inv in Hrun as [([] & s2 & Hq & Hrun)|(e & Hq & ->)];
    [injection Hq as <-|discriminate Hq].
  apply bind_inv in Hrun as [(page_user & s3 & Hq & Hrun)|(e & Hq & ->)];
    [injection Hq as <- <-|discriminate Hq].
  match type of Hrun with
  | context [fresh (dom ?h)] =>
      assert (Hfresh : h !! fresh (dom h) = None)
        by apply not_elem_of_dom, is_fresh;
      set (page_user := fresh (dom h)) in *
  end.
  cbn in Hfresh. rewrite !lookup_alter_None in Hfresh.
  apply bind_inv in Hrun as [([] & s4 & Hloop & Hrun)|(e & Hloop & ->)];
    apply copy_fields_effects in Hloop as (He & Hd & Hr); cbn in He, Hd.
  2: { split; [done|]. destruct Hr as (f & _ & ->). eauto. }
  assert (Hpu : is_Some (heap s4 !! page_user)).
  { apply elem_of_dom. rewrite Hd, dom_insert_L.
    apply elem_of_union. left. by apply elem_of_singleton. }
  destruct Hpu as [po Hpo].
  apply bind_inv in Hrun as [([] & s5 & Hsave & Hrun)|(e & Hsave & ->)];
    unfold save in Hsave; destruct (heap s4 !! user) as [uo|];
    try discriminate Hsave.
  2: { injection Hsave as <- <-. split; [done|]. eauto. }
  injection Hsave as <-.
  apply bind_inv in Hrun as [([] & s6 & Hsave' & Hrun)|(e & Hsave' & ->)];
    unfold save in Hsave'; cbn [heap perform] in Hsave';
    rewrite Hpo in Hsave'; [|discriminate Hsave'].
  injection Hsave' as <-.
  injection Hrun as <- <-. split_and!; [done..|].
  exists page_user, (attrs uo), (attrs po). split; [done|]. cbn.
  by rewrite He, <- !app_assoc.
Qed.

Lemma copy_fields_missing user page_user uo f fields : ∀ s,
  user ≠ page_user →
  heap s !! user = Some uo →
  f ∈ fields → attrs uo !! f = None →
  ∃ before g after s',
    fields = before ++ g :: after ∧
    (∀ h, h ∈ before → is_Some (attrs uo !! h)) ∧
    attrs uo !! g = None ∧
    for_each fields
      (λ field, v ← getattr user field; setattr page_user field v) s
      = (Raise (AttributeError g), s') ∧
    heap s' !! user = Some uo ∧ effects s' = effects s.
Proof.
  induction fields as [|h fields IH]; intros s Hne Hu Hf Hnone.
  - by apply elem_of_nil in Hf.
  - simpl. destruct (attrs uo !! h) as [v|] eqn:Hh.
    + assert (Hget : getattr user h s = (Ok v, s)).
      { unfold getattr. rewrite Hu. simpl. by rewrite Hh. }
      rewrite (bind_run _ _ _ _ _ (bind_run _ _ _ _ _ Hget)).
      unfold setattr at 1, update at 1.
      destruct (IH (set_heap (alter (λ o, {| class := class o;
                                             attrs := <[h := v]> (attrs o) |})
                                page_user) s))
        as (before & g & after & s' & -> & Hbefore & Hgn & Hrun & Hu' & He);
        [done| | |done|].
      * cbn. by rewrite lookup_alter_ne.
      * apply elem_of_cons in Hf as [->|Hf]; [congruence|done].
      * exists (h :: before), g, after, s'. split_and!; [done| |done..].
        intros h' [->|?]%elem_of_cons; [by rewrite Hh|auto].
    + exists [], h, fields, s. split_and!; [done| |done| |done..].
      * intros h' Hh'. by apply elem_of_nil in Hh'.
      * unfold mbind, py_bind, getattr. rewrite Hu. simpl. by rewrite Hh.
Qed.

(** X20. [user] is not validated: when it lacks a field of the user
    model, [create_page_user] raises [AttributeError] on the first
    such field in the order of the model's fields (every field before
    it is one that the user object has), after it has set [is_staff]
    and [is_active] on the user object, which keeps them, and before
    anything is saved. *)
Theorem create_page_user_missing_field created_by user data grant_all s
    creator u f :
  heap s !! created_by = Some creator →
  is_user_model creator = true →
  heap s !! user = Some u →
  f ∈ local_fields →
  attrs (staffed u) !! f = None →
  ∃ before g after s',
    local_fields = before ++ g :: after ∧
    (∀ h, h ∈ before → is_Some (attrs (staffed u) !! h)) ∧
    attrs (staffed u) !! g = None ∧
    create_page_user local_fields created_by user data grant_all s
      = (Raise (AttributeError g), s') ∧
    heap s' !! user = Some (staffed u) ∧
    effects s' = effects s.
Proof.
  intros Hc Hcu Hu Hf Hnone.
  assert (Hcreate : ∀ d, ∃ before g after s',
    local_fields = before ++ g :: after ∧
    (∀ h, h ∈ before → is_Some (attrs (staffed u) !! h)) ∧
    attrs (staffed u) !! g = None ∧
    create local_fields created_by user d s
      = (Raise (AttributeError g), s') ∧
    heap s' !! user = Some (staffed u) ∧
    effects s' = effects s).
  2: { unfold create_page_user. destruct grant_all; apply Hcreate. }
  intros d. unfold create.
  rewrite (bind_run (query _) _ s _ s eq_refl), Hc. cbn [from_option].
  rewrite Hcu.
  rewrite (bind_run (lift (py_assert true)) _ s tt s eq_refl).
  set (h1 := alter (λ o, {| class := class o;
                            attrs := <["is_staff" := VBool true]> (attrs o) |})
               user (heap s)).
  set (h2 := alter (λ o, {| class := class o;
                            attrs := <["is_active" := VBool true]> (attrs o) |})
               user h1).
  set (s1 := {| heap := h1; effects := effects s |}).
  set (s2 := {| heap := h2; effects := effects s |}).
  set (page_user := fresh (dom h2)).
  set (s3 := set_heap <[page_user :=
                {| class := PageUser;
                   attrs := {[ "created_by" := VRef created_by ]} |}]> s2).
  rewrite (bind_run (setattr user "is_staff" _) _ s tt s1 eq_refl).
  rewrite (bind_run (setattr user "is_active" _) _ s1 tt s2 eq_refl).
  rewrite (bind_run (new _ _) _ s2 page_user s3 eq_refl).
  assert (Hu2 : h2 !! user = Some (staffed u)).
  { subst h2 h1. by rewrite !lookup_alter_eq, Hu. }
  assert (Hne : user ≠ page_user).
  { intros Heq.
    assert (Hfresh : h2 !! page_user = None)
      by apply not_elem_of_dom, is_fresh.
    rewrite <- Heq in Hfresh. congruence. }
  destruct (copy_fields_missing user page_user (staffed u) f
              local_fields s3 Hne)
    as (before & g & after & s' & Hsplit & Hbefore & Hgn & Hrun & Hu' & He);
    [|done..|].
  { cbn. by rewrite lookup_insert_ne. }
  exists before, g, after, s'. unfold mbind at 1, py_bind at 1. rewrite Hrun.
  by split_and!.
Qed.

End page_user_extras.

Section page_user_extras_examples.
Import PageUsers.

Lemma create_page_user_saves_all_or_nothing_witness :
  ∃ r s',
    create_page_user demo_fields 1 2 all_granted false demo_store = (r, s') ∧
    match r with
    | Ok returned =>
        returned = 2 ∧
        from_option is_user_model false (heap demo_store !! 1) = true ∧
        ∃ page_user snapshot snapshot',
          heap demo_store !! page_user = None ∧
          effects s' = effects demo_store ++
            [Saved 2 snapshot; Saved page_user snapshot';
             SavedPermissions all_granted page_user]
    | Raise e =>
        effects s' = effects demo_store ∧
        if from_option is_user_model false (heap demo_store !! 1)
        then ∃ f, e = AttributeError f
        else e = AssertionError ∧ s' = demo_store
    end.
Proof.
  eexists _, _. split; [vm_compute; reflexivity|].
  match goal with
  | |- match ?r with Ok _ => _ | Raise _ => effects ?s' = _ ∧ _ end =>
      apply (create_page_user_saves_all_or_nothing demo_fields 1 2
               all_granted false demo_store r s')
  end.
  vm_compute. reflexivity.
Defined.

Lemma create_page_user_missing_field_witness :
  let fields := ["id"; "email"; "phone"] in
  heap demo_store !! 1 = Some demo_admin ∧
  is_user_model demo_admin = true ∧
  heap demo_store !! 2 = Some demo_user ∧
  attrs (staffed demo_user) !! "phone" = None ∧
  ∃ before g after s',
    fields = before ++ g :: after ∧
    (∀ h, h ∈ before → is_Some (attrs (staffed demo_user) !! h)) ∧
    attrs (staffed demo_user) !! g = None ∧
    create_page_user fields 1 2 all_granted false demo_store
      = (Raise (AttributeError g), s') ∧
    heap s' !! 2 = Some (staffed demo_user) ∧
    effects s' = effects demo_store.
Proof.
  intros fields. split_and!; [reflexivity..|].
  apply (create_page_user_missing_field fields 1 2 all_granted false
           demo_store demo_admin demo_user "phone");
    [reflexivity|reflexivity|reflexivity| |reflexivity].
  right. right. left.
Defined.

End page_user_extras_examples.

(** ** Permission grants *)

Section permission_extras.
Import Permissions.

Variable current_site : nat.

(** X21. Without [global_permission], [grant_all] is a shorthand: the
    call does what the call with all eight flags true does.  It
    stores one [PagePermission] for the page and user under a fresh
    key, with every flag true, returns it, and leaves the global
    permissions alone. *)
Theorem assign_user_to_page_grant_all page user grant_on flags
    can_recover_page s :
  assign_user_to_page current_site page user grant_on flags can_recover_page
    true false s
  = assign_user_to_page current_site page user grant_on all_flags
      can_recover_page false false s
  ∧ ∃ k,
      page_permissions s !! k = None ∧
      assign_user_to_page current_site page user grant_on flags
        can_recover_page true false s
      = (Ok (OfPage k {| pp_page := page; pp_user := user;
                         pp_grant_on := grant_on; pp_flags := all_flags |}),
         {| page_permissions :=
              <[k := {| pp_page := page; pp_user := user;
                        pp_grant_on := grant_on; pp_flags := all_flags |}]>
                (page_permissions s);
            global_permissions := global_permissions s;
            global_permission_sites := global_permission_sites s |}).
Proof.
  unfold assign_user_to_page. cbn [andb negb].
  rewrite !orb_true_r. split; [done|].
  exists (fresh (dom (page_permissions s))).
  split; [apply not_elem_of_dom, is_fresh|done].
Qed.

(** X22. With [global_permission], [grant_all] is ignored: the flags
    stored are the eight flags as given.  The call stores a
    [PagePermission] for the page and a [GlobalPagePermission] for the
    user, both under fresh keys and with these flags, binds the global
    permission to the current site, and returns the global
    permission. *)
Theorem assign_user_to_page_global page user grant_on flags can_recover_page
    grant_all s :
  ∃ k g,
    page_permissions s !! k = None ∧ global_permissions s !! g = None ∧
    assign_user_to_page current_site page user grant_on flags can_recover_page
      grant_all true s
    = (Ok (Global g {| gp_user := user;
                       gp_can_recover_page := can_recover_page;
                       gp_flags := flags |}),
       {| page_permissions :=
            <[k := {| pp_page := page; pp_user := user;
                      pp_grant_on := grant_on; pp_flags := flags |}]>
              (page_permissions s);
          global_permissions :=
            <[g := {| gp_user := user;
                      gp_can_recover_page := can_recover_page;
                      gp_flags := flags |}]> (global_permissions s);
          global_permission_sites :=
            {[ (g, current_site) ]} ∪ global_permission_sites s |}).
Proof.
  exists (fresh (dom (page_permissions s))),
         (fresh (dom (global_permissions s))).
  split_and!; [apply not_elem_of_dom, is_fresh..|].
  unfold assign_user_to_page. cbn [negb]. rewrite andb_false_r.
  rewrite !orb_false_r. by destruct flags.
Qed.

End permission_extras.

(** ** Draft of a page *)

Section draft_extras.
Import Drafts.

Variable publisher_draft : Page → result Page.

(** X23. When the relation [publisher_draft] only leads to draft
    pages, what [get_page_draft] returns is a draft page, or [None]
    exactly when it was given [None], and [get_page_draft] applied to
    its own result returns it unchanged. *)
Theorem get_page_draft_idempotent page r :
  leads_to_drafts publisher_draft →
  get_page_draft publisher_draft page = Ok r →
  (∀ d, r = Some d → publisher_is_draft d = true) ∧
  (r = None ↔ page = None) ∧
  get_page_draft publisher_draft r = Ok r.
Proof.
  intros Hd. unfold get_page_draft at 1.
  destruct page as [p|]; [|by intros [= <-]].
  destruct (publisher_is_draft p) eqn:Hp.
  - intros [= <-]. split_and!; [by intros ? [= <-]|done|].
    simpl. by rewrite Hp.
  - destruct (publisher_draft p) as [d|] eqn:Hpd; [|done].
    intros [= <-]. pose proof (Hd _ _ Hpd) as Hdd.
    split_and!; [by intros ? [= <-]|done|]. simpl. by rewrite Hdd.
Qed.

End draft_extras.

Section draft_extras_examples.
Import Drafts.

Lemma get_page_draft_idempotent_witness :
  let draft := {| pk := 1; publisher_is_draft := true |} in
  let public := {| pk := 2; publisher_is_draft := false |} in
  let publisher_draft := λ _ : Page, Ok draft in
  leads_to_drafts publisher_draft ∧
  get_page_draft publisher_draft (Some public) = Ok (Some draft) ∧
  (∀ d, Some draft = Some d → publisher_is_draft d = true) ∧
  (Some draft = None ↔ Some public = None) ∧
  get_page_draft publisher_draft (Some draft) = Ok (Some draft).
Proof.
  intros draft public publisher_draft.
  assert (Hd : leads_to_drafts publisher_draft) by (by intros p d [= <-]).
  split; [exact Hd|]. split; [reflexivity|].
  apply (get_page_draft_idempotent publisher_draft (Some public)
           (Some draft) Hd).
  reflexivity.
Defined.

End draft_extras_examples.
